(** * URL resolver for documentation (readthedocs/core/resolver.py)

    A shallow embedding of [ResolverBase]: the canonical-project ascent, the
    path builder with its two-hop hierarchy walk, the domain and protocol
    selection of [resolve], and the properties the specification states
    about them. *)

From Stdlib Require Import Ascii String.
From stdpp Require Import base decidable option list strings finite gmap.

Local Open Scope string_scope.

(** ** Python values and string helpers *)

(** [s.replace(old, new)] for one-character [old] and [new]. *)
Fixpoint str_replace (old new : ascii) (s : string) : string :=
  match s with
  | EmptyString => EmptyString
  | String c rest =>
      String (if Ascii.eqb c old then new else c) (str_replace old new rest)
  end.

(** [s.lstrip(c)] for a one-character set [c]. *)
Fixpoint str_lstrip (c : ascii) (s : string) : string :=
  match s with
  | EmptyString => EmptyString
  | String a rest => if Ascii.eqb a c then str_lstrip c rest else s
  end.

(** [needle in hay] on strings: [needle] occurs as a contiguous substring. *)
Fixpoint str_in (needle hay : string) : bool :=
  String.prefix needle hay ||
  match hay with
  | EmptyString => false
  | String _ rest => str_in needle rest
  end.

(** Truthiness of a string: [bool(s)]. *)
Definition str_truthy (s : string) : bool :=
  match s with EmptyString => false | String _ _ => true end.

(** [o or d] where [o] is a string or [None] and [d] a string. *)
Definition str_or (o : option string) (d : string) : string :=
  match o with
  | Some s => if str_truthy s then s else d
  | None => d
  end.

(** What [str.format] writes for an argument that is a string or [None]. *)
Definition str_format (o : option string) : string :=
  match o with Some s => s | None => "None" end.

(** ** Data model *)

Module Domain.
Record t := mk { domain : string; canonical : bool; https : bool }.
End Domain.

(** Modelled from the spec: the version type constants of
    [readthedocs.builds.constants], an enum including an [EXTERNAL] variant. *)
Inductive version_type := BRANCH | TAG | EXTERNAL | UNKNOWN.

#[global] Instance version_type_eq_dec : EqDecision version_type.
Proof. solve_decision. Defined.

Module Version.
Record t := mk { slug : string; type : version_type }.
End Version.

Module ProjectRelationship.
Record t (P : Type) := mk { parent : P; alias : string }.
Arguments mk {P} _ _.
Arguments parent {P} _.
Arguments alias {P} _.
End ProjectRelationship.

(** A row of the project table. Foreign keys are primary keys of type [P].
    The fields [default_version], [parent_relationship] and
    [canonical_custom_domain] hold what the model accessors
    [get_default_version()], [get_parent_relationship()] and
    [get_canonical_custom_domain()] return; [domains] and [versions] are the
    related querysets in their default order. *)
Module Project.
Record t (P : Type) := mk {
  slug : string;
  language : string;
  single_version : bool;
  default_version : string;
  main_language_project : option P;
  parent_relationship : option (ProjectRelationship.t P);
  canonical_custom_domain : option Domain.t;
  domains : list Domain.t;
  versions : list Version.t;
}.
Arguments mk {P} _ _ _ _ _ _ _ _ _.
Arguments slug {P} _.
Arguments language {P} _.
Arguments single_version {P} _.
Arguments default_version {P} _.
Arguments main_language_project {P} _.
Arguments parent_relationship {P} _.
Arguments canonical_custom_domain {P} _.
Arguments domains {P} _.
Arguments versions {P} _.
End Project.

(** [django.conf.settings], the part the resolver reads. *)
Record Settings := {
  USE_SUBDOMAIN : bool;
  PUBLIC_DOMAIN : option string;
  PRODUCTION_DOMAIN : string;
  RTD_EXTERNAL_VERSION_DOMAIN : string;
  PUBLIC_DOMAIN_USES_HTTPS : bool;
}.

(** The loosely typed [subdomain] and [cname] arguments: only their
    truthiness is read. *)
Inductive pyval :=
  | PyNone
  | PyBool (b : bool)
  | PyStr (s : string)
  | PyDomain (d : Domain.t).

Definition truthy (v : pyval) : bool :=
  match v with
  | PyNone => false
  | PyBool b => b
  | PyStr s => str_truthy s
  | PyDomain _ => true
  end.

(** Python's [a or b]: [a] when it is truthy, [b] otherwise. *)
Definition py_or (a b : pyval) : pyval := if truthy a then a else b.

Definition of_domain (o : option Domain.t) : pyval :=
  match o with Some d => PyDomain d | None => PyNone end.

(** [urllib.parse.urlunparse] on a 6-tuple of strings, for the schemes
    [http] and [https] (both in [uses_netloc]). *)
Definition urlunparse
    (scheme netloc url params query fragment : string) : string :=
  let url := if str_truthy params then url ++ ";" ++ params else url in
  let url :=
    if str_truthy netloc
       || (str_truthy scheme && negb (String.prefix "//" url))
    then
      let url :=
        if str_truthy url && negb (String.prefix "/" url)
        then "/" ++ url else url in
      "//" ++ netloc ++ url
    else url in
  let url := if str_truthy scheme then scheme ++ ":" ++ url else url in
  let url := if str_truthy query then url ++ "?" ++ query else url in
  if str_truthy fragment then url ++ "#" ++ fragment else url.

(** ** The resolver *)

Section ResolverBase.

(** Primary keys of the project table: a finite type, so that every
    foreign key refers to a row. [db] is the table. *)
Context {P : Type} `{Finite P}.
Variable settings : Settings.
Variable db : P → Project.t P.

Definition get_parent_relationship (project : P)
    : option (ProjectRelationship.t P) :=
  Project.parent_relationship (db project).

Definition get_canonical_custom_domain (project : P) : option Domain.t :=
  Project.canonical_custom_domain (db project).

Definition get_default_version (project : P) : string :=
  Project.default_version (db project).

(** [_use_subdomain] *)
Definition _use_subdomain : bool :=
  USE_SUBDOMAIN settings && bool_decide (is_Some (PUBLIC_DOMAIN settings)).

(** [_use_custom_domain] *)
Definition _use_custom_domain (custom_domain : option Domain.t) : bool :=
  match custom_domain with Some _ => true | None => false end.

(** [_fix_filename] *)
Definition _fix_filename (project : P) (filename : string) : string :=
  str_lstrip "/" filename.

(** The project the ascent moves to from [project]: its translation
    parent when it has one, else the parent of its subproject relation. *)
Definition next_project (project : P) : option P :=
  match Project.main_language_project (db project) with
  | Some main_language_project => Some main_language_project
  | None =>
      match get_parent_relationship project with
      | Some relation => Some (ProjectRelationship.parent relation)
      | None => None
      end
  end.

(** [_get_canonical_project(project, projects)]: one unit of [fuel] per
    call; [projects] is the visited set handed down the recursion. *)
Fixpoint get_canonical_project_rec
    (fuel : nat) (project : P) (projects : option (gset P)) : option P :=
  match fuel with
  | O => None
  | S fuel' =>
      let projects :=
        match projects with
        | None => {[project]}
        | Some projects => {[project]} ∪ projects
        end in
      match next_project project with
      | Some next =>
          if decide (next ∈ projects) then Some project
          else get_canonical_project_rec fuel' next (Some projects)
      | None => Some project
      end
  end.

(** [_get_canonical_project(project)]: called without a visited set; the
    number of rows bounds the depth of the recursion. *)
Definition _get_canonical_project (project : P) : P :=
  default project (get_canonical_project_rec (card P) project None).

(** [_get_external_subdomain] *)
Definition _get_external_subdomain (project : P) (version_slug : string)
    : string :=
  let subdomain_slug := str_replace "_" "-" (Project.slug (db project)) in
  subdomain_slug ++ "--" ++ version_slug ++ "."
    ++ RTD_EXTERNAL_VERSION_DOMAIN settings.

(** [_get_project_subdomain] *)
Definition _get_project_subdomain (project : P) : string :=
  let subdomain_slug := str_replace "_" "-" (Project.slug (db project)) in
  subdomain_slug ++ "." ++ str_format (PUBLIC_DOMAIN settings).

(** [_is_external] *)
Definition _is_external (project : P) (version_slug : string) : bool :=
  let type_ :=
    head (Version.type <$>
            filter (λ v, Version.slug v = version_slug)
                   (Project.versions (db project))) in
  bool_decide (type_ = Some EXTERNAL).

(** [base_resolve_path] *)
Definition base_resolve_path
    (project_slug filename : string)
    (version_slug language : option string)
    (single_version : option bool)
    (subproject_slug : option string)
    (subdomain cname : pyval) : string :=
  let url :=
    if truthy subdomain || truthy cname || _use_subdomain
    then "/"
    else "/docs/" ++ project_slug ++ "/" in
  let url :=
    if str_truthy (default "" subproject_slug)
    then url ++ "projects/" ++ str_format subproject_slug ++ "/"
    else url in
  if default false single_version
  then url ++ filename
  else url ++ str_format language ++ "/" ++ str_format version_slug
           ++ "/" ++ filename.

(** The variables the hierarchy walk of [resolve_path] updates. *)
Record walk_vars := WalkVars {
  w_current_project : P;
  w_project_slug : string;
  w_language : string;
  w_subproject_slug : option string;
  w_cname : pyval;
}.

(** One iteration of the loop body; [None] is the [break]. *)
Definition walk_step (project : P) (w : walk_vars) : option walk_vars :=
  let main_language_project :=
    Project.main_language_project (db (w_current_project w)) in
  let relation := get_parent_relationship (w_current_project w) in
  match main_language_project with
  | Some main_language_project =>
      Some {| w_current_project := main_language_project;
              w_project_slug := Project.slug (db main_language_project);
              w_language := Project.language (db project);
              w_subproject_slug := None;
              w_cname := w_cname w |}
  | None =>
      match relation with
      | Some relation =>
          let parent := ProjectRelationship.parent relation in
          Some {| w_current_project := parent;
                  w_project_slug := Project.slug (db parent);
                  w_language := w_language w;
                  w_subproject_slug := Some (ProjectRelationship.alias relation);
                  w_cname :=
                    of_domain
                      (head (filter (λ d, Domain.canonical d = true)
                                    (Project.domains (db parent)))) |}
      | None => None
      end
  end.

(** [for _ in range(0, n)] around the loop body. *)
Fixpoint walk (n : nat) (project : P) (w : walk_vars) : walk_vars :=
  match n with
  | O => w
  | S n' =>
      match walk_step project w with
      | Some w' => walk n' project w'
      | None => w
      end
  end.

(** The loop variables of [resolve_path] when the loop is left. *)
Definition resolve_path_walk
    (project : P) (language : option string) (cname : pyval) : walk_vars :=
  let cname := py_or cname (of_domain (get_canonical_custom_domain project)) in
  let language := str_or language (Project.language (db project)) in
  walk 2 project
    {| w_current_project := project;
       w_project_slug := Project.slug (db project);
       w_language := language;
       w_subproject_slug := None;
       w_cname := cname |}.

(** [resolve_path] *)
Definition resolve_path
    (project : P) (filename : string)
    (version_slug language : option string)
    (single_version : option bool)
    (subdomain cname : pyval) : string :=
  let version_slug := str_or version_slug (get_default_version project) in
  let filename := _fix_filename project filename in
  let w := resolve_path_walk project language cname in
  let single_version :=
    Project.single_version (db project) || default false single_version in
  base_resolve_path
    (w_project_slug w) filename (Some version_slug) (Some (w_language w))
    (Some single_version) (w_subproject_slug w) subdomain (w_cname w).

(** [resolve_domain] *)
Definition resolve_domain (project : P) : string :=
  let canonical_project := _get_canonical_project project in
  let domain := get_canonical_custom_domain canonical_project in
  match domain with
  | Some domain => Domain.domain domain
  | None =>
      if _use_subdomain then _get_project_subdomain canonical_project
      else PRODUCTION_DOMAIN settings
  end.

(** The components [resolve] hands to [urlunparse]. *)
Record url_components := UrlComponents {
  u_protocol : string;
  u_domain : string;
  u_path : string;
  u_query : string;
}.

(** [resolve] up to the call of [urlunparse]; the keyword arguments
    are the ones [resolve_path] accepts. *)
Definition resolve_components
    (project : P) (require_https : bool) (filename query_params : string)
    (external : option bool)
    (version_slug language : option string)
    (single_version : option bool)
    (subdomain cname : pyval) : url_components :=
  let kw_version_slug := version_slug in
  let version_slug :=
    match version_slug with
    | None => get_default_version project
    | Some version_slug => version_slug
    end in
  let external :=
    match external with
    | None => _is_external project version_slug
    | Some external => external
    end in
  let canonical_project := _get_canonical_project project in
  let custom_domain := get_canonical_custom_domain canonical_project in
  let use_custom_domain := _use_custom_domain custom_domain in
  let domain :=
    if external then _get_external_subdomain canonical_project version_slug
    else
      match custom_domain with
      | Some custom_domain => Domain.domain custom_domain
      | None =>
          if _use_subdomain then _get_project_subdomain canonical_project
          else PRODUCTION_DOMAIN settings
      end in
  let use_https_protocol :=
    match custom_domain with
    | Some custom_domain => Domain.https custom_domain
    | None => false
    end
    || require_https
    || (PUBLIC_DOMAIN_USES_HTTPS settings
        && match PUBLIC_DOMAIN settings with
           | Some public_domain =>
               str_truthy public_domain
               && (str_in public_domain domain
                   || str_in (RTD_EXTERNAL_VERSION_DOMAIN settings) domain)
           | None => false
           end) in
  let protocol := if use_https_protocol then "https" else "http" in
  let path :=
    resolve_path project filename kw_version_slug language single_version
      subdomain cname in
  {| u_protocol := protocol; u_domain := domain; u_path := path;
     u_query := query_params |}.

(** [resolve] *)
Definition resolve
    (project : P) (require_https : bool) (filename query_params : string)
    (external : option bool)
    (version_slug language : option string)
    (single_version : option bool)
    (subdomain cname : pyval) : string :=
  let u :=
    resolve_components project require_https filename query_params external
      version_slug language single_version subdomain cname in
  urlunparse (u_protocol u) (u_domain u) (u_path u) "" (u_query u) "".

(** [ascend n project]: the project reached from [project] after [n]
    hops of the ascent, if the hierarchy goes that far. *)
Fixpoint ascend (n : nat) (project : P) : option P :=
  match n with
  | O => Some project
  | S n' =>
      match next_project project with
      | Some next => ascend n' next
      | None => None
      end
  end.

(** The hierarchy above [project] holds no cycle. *)
Definition acyclic_above (project : P) : Prop :=
  ∀ (j : nat) (q : P) (k : nat),
    ascend j project = Some q → 0 < k → ascend k q ≠ Some q.

(** The visited set of a call of [_get_canonical_project] once [project]
    has been added to it. *)
Definition seen (project : P) (projects : option (gset P)) : gset P :=
  match projects with
  | None => {[project]}
  | Some projects => {[project]} ∪ projects
  end.

(** The first canonical domain of a project:
    [project.domains.filter(canonical=True).first()]. *)
Definition first_canonical_domain (project : P) : option Domain.t :=
  head (filter (λ d, Domain.canonical d = true) (Project.domains (db project))).

(** *** The specification's wording, for comparison with the code *)

(** Domain priority of the specification: external naming, then the custom
    domain, then the subdomain form, then the production domain. *)
Definition spec_select_domain
    (external : bool) (custom_domain : option Domain.t)
    (external_form subdomain_form : string) : string :=
  if external then external_form
  else
    match custom_domain with
    | Some d => Domain.domain d
    | None =>
        if USE_SUBDOMAIN settings
           && bool_decide (is_Some (PUBLIC_DOMAIN settings))
        then subdomain_form
        else PRODUCTION_DOMAIN settings
    end.

(** Path template of the specification: root, optional subproject segment,
    then the file name alone or behind language and version. *)
Definition spec_path
    (root_is_slash : bool) (project_slug : string) (alias : option string)
    (single_version : bool) (language version_slug filename : string)
    : string :=
  ((if root_is_slash then "/" else "/docs/" ++ project_slug ++ "/")
   ++ match alias with
      | Some alias => "projects/" ++ alias ++ "/"
      | None => ""
      end)
  ++ (if single_version then filename
      else language ++ "/" ++ version_slug ++ "/" ++ filename).

(** A subproject alias is pending when it is set and not empty. *)
Definition pending_alias (subproject_slug : option string) : option string :=
  match subproject_slug with
  | Some alias => if str_truthy alias then Some alias else None
  | None => None
  end.

(** Condition (c) of the protocol selector as the specification words it:
    https is enforced for the public domain and the resolved domain contains
    the public domain or the external-version domain. *)
Definition spec_https_public (domain : string) : bool :=
  PUBLIC_DOMAIN_USES_HTTPS settings
  && (match PUBLIC_DOMAIN settings with
      | Some public_domain => str_in public_domain domain
      | None => false
      end
      || str_in (RTD_EXTERNAL_VERSION_DOMAIN settings) domain).

(** Condition (c) as the code evaluates it: in addition a public domain is
    configured and not empty. *)
Definition https_public (domain : string) : bool :=
  PUBLIC_DOMAIN_USES_HTTPS settings
  && match PUBLIC_DOMAIN settings with
     | Some public_domain =>
         str_truthy public_domain
         && (str_in public_domain domain
             || str_in (RTD_EXTERNAL_VERSION_DOMAIN settings) domain)
     | None => false
     end.

(** The specification's reading of the subproject step: the cname is
    replaced only if the parent has a canonical domain, and kept otherwise. *)
Definition cname_kept_without_parent_domain : Prop :=
  ∀ (project : P) (w w' : walk_vars) (relation : ProjectRelationship.t P),
    Project.main_language_project (db (w_current_project w)) = None →
    get_parent_relationship (w_current_project w) = Some relation →
    first_canonical_domain (ProjectRelationship.parent relation) = None →
    walk_step project w = Some w' →
    w_cname w' = w_cname w.

(** Condition (a) of the protocol selector: a custom domain is in use,
    that is, the version is not external and the canonical project has a
    canonical custom domain, which is then the resolved host, and that
    domain's https flag is set. *)
Definition custom_domain_in_use_https
    (project : P) (external : option bool) (version_slug : option string)
    : Prop :=
  let version := default (get_default_version project) version_slug in
  default (_is_external project version) external = false
  ∧ ∃ d, get_canonical_custom_domain (_get_canonical_project project) = Some d
         ∧ Domain.https d = true.

(** The canonical project has a canonical custom domain with the https
    flag set, but the version is external, so that the resolved host is
    the external one and the custom domain is not in use. *)
Definition custom_domain_unused_https
    (project : P) (external : option bool) (version_slug : option string)
    : Prop :=
  let version := default (get_default_version project) version_slug in
  default (_is_external project version) external = true
  ∧ ∃ d, get_canonical_custom_domain (_get_canonical_project project) = Some d
         ∧ Domain.https d = true.

(** The protocol selector as the specification words it: https exactly
    when a custom domain is in use and asks for it, the caller requires
    it, or condition (c) in the specification's wording holds. *)
Definition spec_https_claim
    (project : P) (require_https : bool) (filename query_params : string)
    (external : option bool)
    (version_slug language : option string)
    (single_version : option bool)
    (subdomain cname : pyval) : Prop :=
  let u :=
    resolve_components project require_https filename query_params external
      version_slug language single_version subdomain cname in
  u_protocol u = "https"
  ↔ custom_domain_in_use_https project external version_slug
    ∨ require_https = true
    ∨ spec_https_public (u_domain u) = true.

End ResolverBase.

(** ** Concrete project tables *)

Inductive pk := pk1 | pk2 | pk3 | pk4.

#[global] Instance pk_eq_dec : EqDecision pk.
Proof. solve_decision. Defined.

#[global] Instance pk_finite : Finite pk.
Proof.
  refine {| enum := [pk1; pk2; pk3; pk4] |}.
  - by apply (bool_decide_unpack _).
  - intros []; apply (bool_decide_unpack _); by vm_compute.
Defined.

Definition settings_subdomain : Settings :=
  {| USE_SUBDOMAIN := true;
     PUBLIC_DOMAIN := Some "readthedocs.io";
     PRODUCTION_DOMAIN := "readthedocs.org";
     RTD_EXTERNAL_VERSION_DOMAIN := "build.example.com";
     PUBLIC_DOMAIN_USES_HTTPS := false |}.

Definition settings_development : Settings :=
  {| USE_SUBDOMAIN := false;
     PUBLIC_DOMAIN := None;
     PRODUCTION_DOMAIN := "localhost:8000";
     RTD_EXTERNAL_VERSION_DOMAIN := "build.example.com";
     PUBLIC_DOMAIN_USES_HTTPS := false |}.

(** Https enforced for the public domain, but no public domain set. *)
Definition settings_https_no_public : Settings :=
  {| USE_SUBDOMAIN := false;
     PUBLIC_DOMAIN := None;
     PRODUCTION_DOMAIN := "readthedocs.org";
     RTD_EXTERNAL_VERSION_DOMAIN := "build.example.com";
     PUBLIC_DOMAIN_USES_HTTPS := true |}.

(** Subdomain routing with https enforced for the public domain. *)
Definition settings_https : Settings :=
  {| USE_SUBDOMAIN := true;
     PUBLIC_DOMAIN := Some "readthedocs.io";
     PRODUCTION_DOMAIN := "readthedocs.org";
     RTD_EXTERNAL_VERSION_DOMAIN := "build.example.com";
     PUBLIC_DOMAIN_USES_HTTPS := true |}.

Definition docs_example_com : Domain.t :=
  Domain.mk "docs.example.com" true true.

Definition row
    (slug language : string) (translation_of : option pk)
    (subproject_of : option (ProjectRelationship.t pk))
    (custom_domain : option Domain.t) (versions : list Version.t)
    : Project.t pk :=
  Project.mk slug language false "latest" translation_of subproject_of
    custom_domain (option_list custom_domain) versions.

(** A cycle of length four:
    pk1 -translation-> pk2 -subproject-> pk3 -translation-> pk4
    -subproject-> pk1. *)
Definition db_cycle (p : pk) : Project.t pk :=
  match p with
  | pk1 => row "a_1" "fr" (Some pk2) None None []
  | pk2 => row "b_2" "en" None (Some (ProjectRelationship.mk pk3 "bb")) None []
  | pk3 => row "c_3" "de" (Some pk4) None None []
  | pk4 => row "d_4" "en" None (Some (ProjectRelationship.mk pk1 "dd")) None []
  end.

(** A chain of depth three with root pk4:
    pk1 -subproject-> pk2 -translation-> pk3 -subproject-> pk4. *)
Definition db_chain (p : pk) : Project.t pk :=
  match p with
  | pk1 => row "one" "en" None (Some (ProjectRelationship.mk pk2 "first")) None []
  | pk2 => row "two" "fr" (Some pk3) None None []
  | pk3 => row "three" "en" None (Some (ProjectRelationship.mk pk4 "third")) None []
  | pk4 => row "four" "en" None None None []
  end.

(** pk1 is a subproject of pk2 and has a custom domain of its own while its
    parent has none; pk3 stands alone with a custom domain; pk4 stands alone
    without one. *)
Definition db_sub (p : pk) : Project.t pk :=
  match p with
  | pk1 =>
      row "my_sub" "en" None (Some (ProjectRelationship.mk pk2 "api"))
        (Some docs_example_com)
        [Version.mk "pr-42" EXTERNAL; Version.mk "latest" BRANCH]
  | pk2 => row "parent" "en" None None None []
  | pk3 =>
      row "with_domain" "en" None None (Some docs_example_com)
        [Version.mk "pr-42" EXTERNAL; Version.mk "latest" BRANCH]
  | pk4 =>
      row "my_project" "en" None None None
        [Version.mk "pr-42" EXTERNAL; Version.mk "latest" BRANCH]
  end.

(** The walk variables [resolve_path] starts from for pk1 of [db_sub]. *)
Definition w_sub_start : walk_vars :=
  {| w_current_project := pk1;
     w_project_slug := "my_sub";
     w_language := "en";
     w_subproject_slug := None;
     w_cname := PyDomain docs_example_com |}.

(** The walk variables after the subproject step from [w_sub_start]. *)
Definition w_sub_parent : walk_vars :=
  {| w_current_project := pk2;
     w_project_slug := "parent";
     w_language := "en";
     w_subproject_slug := Some "api";
     w_cname := PyNone |}.

(** The walk variables [resolve_path] starts from for pk2 of [db_chain]
    when the caller passes the language [de]. *)
Definition w_chain_start : walk_vars :=
  {| w_current_project := pk2;
     w_project_slug := "two";
     w_language := "de";
     w_subproject_slug := None;
     w_cname := PyNone |}.

(** The same table with other stored versions. *)
Definition with_versions {P : Type}
    (versions : P → list Version.t) (db : P → Project.t P) (p : P)
    : Project.t P :=
  {| Project.slug := Project.slug (db p);
     Project.language := Project.language (db p);
     Project.single_version := Project.single_version (db p);
     Project.default_version := Project.default_version (db p);
     Project.main_language_project := Project.main_language_project (db p);
     Project.parent_relationship := Project.parent_relationship (db p);
     Project.canonical_custom_domain := Project.canonical_custom_domain (db p);
     Project.domains := Project.domains (db p);
     Project.versions := versions p |}.

(** ** Properties of the string helpers *)

Lemma str_app_cons (c : ascii) (a b : string) :
  String c a ++ b = String c (a ++ b).
Proof. reflexivity. Qed.

Lemma str_app_nil_l (a : string) : "" ++ a = a.
Proof. reflexivity. Qed.

Lemma str_prefix_app (n h : string) :
  String.prefix n h = true ↔ ∃ b, h = n ++ b.
Proof.
  revert h. induction n as [|c n IH]; intros h.
  - split; [intros _; by exists h | intros _; by destruct h].
  - destruct h as [|c' h]; simpl.
    + split; [done | intros [b Hb]; discriminate].
    + destruct (Ascii.ascii_dec c c') as [->|Hne].
      * rewrite IH. split; intros [b Hb]; exists b;
          rewrite str_app_cons in *; congruence.
      * split; [done | intros [b Hb]; rewrite str_app_cons in Hb; congruence].
Qed.

(** [str_in] is substring containment. *)
Lemma str_in_spec (n h : string) :
  str_in n h = true ↔ ∃ a b, h = a ++ n ++ b.
Proof.
  induction h as [|c h IH].
  - cbn [str_in]. rewrite orb_false_r, str_prefix_app. split.
    + intros [b Hb]. by exists "", b.
    + intros [a [b Hab]]. destruct a; [by exists b | discriminate].
  - cbn [str_in]. rewrite orb_true_iff, str_prefix_app, IH. split.
    + intros [[b Hb]|[a [b Hab]]].
      * by exists "", b.
      * exists (String c a), b. rewrite str_app_cons. by rewrite Hab.
    + intros [a [b Hab]]. destruct a as [|c' a].
      * left. by exists b.
      * right. exists a, b. rewrite str_app_cons in Hab. congruence.
Qed.

(** Position by position, [str_replace] swaps [old] for [new] and keeps
    every other character. *)
Lemma str_replace_get (old new : ascii) (s : string) (i : nat) :
  String.get i (str_replace old new s)
  = (λ c, if Ascii.eqb c old then new else c) <$> String.get i s.
Proof.
  revert i. induction s as [|c s IH]; intros i; simpl; [done|].
  destruct i; simpl; [done | apply IH].
Qed.

Lemma str_app_assoc (a b c : string) : (a ++ b) ++ c = a ++ b ++ c.
Proof.
  induction a as [|x a IH]; [done|]. rewrite !str_app_cons. by rewrite IH.
Qed.

Lemma str_app_nil_r (a : string) : a ++ "" = a.
Proof.
  induction a as [|x a IH]; [done|]. rewrite str_app_cons. by rewrite IH.
Qed.

(** ** Properties of the resolver *)

Section Properties.

Context {P : Type} `{Finite P}.
Variable settings : Settings.
Variable db : P → Project.t P.

Local Open Scope nat_scope.


(** *** The ascent *)

Lemma ascend_S_r (n : nat) (p q r : P) :
  ascend db n p = Some q → next_project db q = Some r → ascend db (S n) p = Some r.
Proof.
  revert p. induction n as [|n IH]; intros p Hq Hr; simpl in *.
  - injection Hq as ->. by rewrite Hr.
  - destruct (next_project db p) as [p'|]; [|done]. by apply IH.
Qed.

Lemma ascend_add (a b : nat) (p : P) :
  ascend db (a + b) p = ascend db a p ≫= ascend db b.
Proof.
  revert p. induction a as [|a IH]; intros p; simpl; [done|].
  destruct (next_project db p) as [p'|]; [apply IH | done].
Qed.

Lemma ascend_root_None (n : nat) (r : P) :
  next_project db r = None → 0 < n → ascend db n r = None.
Proof. intros Hr Hn. destruct n; [lia|]. simpl. by rewrite Hr. Qed.

(** A project that reaches a root lies on no cycle. *)
Lemma ascend_root_no_cycle (d k : nat) (p r : P) :
  ascend db d p = Some r → next_project db r = None → 0 < k → ascend db k p ≠ Some p.
Proof.
  intros Hd Hr Hk Hcyc.
  assert (Hm : ∀ m, ascend db (m * k) p = Some p).
  { induction m as [|m IH]; [done|].
    replace (S m * k) with (k + m * k) by lia.
    by rewrite ascend_add, Hcyc. }
  specialize (Hm (S d)).
  replace (S d * k) with (d + (S d * k - d)) in Hm by nia.
  rewrite ascend_add, Hd in Hm. simpl in Hm.
  rewrite ascend_root_None in Hm; [done | done | nia].
Qed.

(** The root above a project is unique. *)
Lemma ascend_root_unique (d d' : nat) (p r r' : P) :
  ascend db d p = Some r → next_project db r = None →
  ascend db d' p = Some r' → next_project db r' = None →
  d = d' ∧ r = r'.
Proof.
  intros Hd Hr Hd' Hr'.
  destruct (Nat.lt_trichotomy d d') as [Hlt|[->|Hlt]].
  - replace d' with (d + (d' - d)) in Hd' by lia.
    rewrite ascend_add, Hd in Hd'. simpl in Hd'.
    rewrite ascend_root_None in Hd'; [done | done | lia].
  - split; [done | congruence].
  - replace d with (d' + (d - d')) in Hd by lia.
    rewrite ascend_add, Hd' in Hd. simpl in Hd.
    rewrite ascend_root_None in Hd; [done | done | lia].
Qed.

(** *** The canonical project *)

Lemma size_le_card (X : gset P) : size X ≤ card P.
Proof.
  unfold size, set_size, card. simpl.
  apply submseteq_length, NoDup_submseteq; [apply NoDup_elements|].
  intros x _. apply elem_of_enum.
Qed.

(** Enough fuel: the recursion returns when the fuel exceeds the number of
    projects not yet visited. *)
Lemma get_canonical_project_rec_total
    (fuel : nat) (project : P) (projects : option (gset P)) :
  card P < fuel + size (seen project projects) →
  is_Some (get_canonical_project_rec db fuel project projects).
Proof.
  revert project projects.
  induction fuel as [|fuel IH]; intros project projects Hfuel.
  - pose proof (size_le_card (seen project projects)). lia.
  - simpl. fold (seen project projects).
    destruct (next_project db project) as [next|]; [|by eexists].
    case_decide as Hin; [by eexists|].
    apply IH. unfold seen at 1. rewrite size_union by set_solver.
    rewrite size_singleton. lia.
Qed.

Lemma get_canonical_project_rec_mono
    (fuel fuel' : nat) (project q : P) (projects : option (gset P)) :
  get_canonical_project_rec db fuel project projects = Some q →
  fuel ≤ fuel' →
  get_canonical_project_rec db fuel' project projects = Some q.
Proof.
  revert fuel' project projects.
  induction fuel as [|fuel IH]; intros fuel' project projects Hq Hle; [done|].
  destruct fuel' as [|fuel']; [lia|].
  simpl in *. destruct (next_project db project) as [next|]; [|done].
  case_decide; [done|]. apply (IH fuel'); [done | lia].
Qed.

Lemma get_canonical_project_rec_agree
    (fuel fuel' : nat) (project q q' : P) (projects : option (gset P)) :
  get_canonical_project_rec db fuel project projects = Some q →
  get_canonical_project_rec db fuel' project projects = Some q' →
  q = q'.
Proof.
  intros Hq Hq'.
  apply (get_canonical_project_rec_mono _ (fuel `max` fuel')) in Hq; [|lia].
  apply (get_canonical_project_rec_mono _ (fuel `max` fuel')) in Hq'; [|lia].
  congruence.
Qed.

(** The call without a visited set returns, with the number of rows as
    fuel. *)
Lemma get_canonical_project_returns (project : P) :
  get_canonical_project_rec db (card P) project None
  = Some (_get_canonical_project db project).
Proof.
  unfold _get_canonical_project.
  destruct (get_canonical_project_rec_total (card P) project None) as [q ->];
    [|done].
  unfold seen. rewrite size_singleton. lia.
Qed.

(** Where the recursion stops: at a project above the one it started from
    that is a root or closes a cycle. *)
Lemma get_canonical_project_rec_stop
    (fuel : nat) (project q : P) (projects : option (gset P)) :
  (∀ v, v ∈ seen project projects → ∃ i, ascend db i v = Some project) →
  get_canonical_project_rec db fuel project projects = Some q →
  (∃ j, ascend db j project = Some q)
  ∧ (next_project db q = None ∨ ∃ i, ascend db (S i) q = Some q).
Proof.
  revert project projects.
  induction fuel as [|fuel IH]; intros project projects Hseen Hq; [done|].
  simpl in Hq. fold (seen project projects) in Hq.
  destruct (next_project db project) as [next|] eqn:Hnext.
  - case_decide as Hin.
    + injection Hq as <-. split; [by exists 0|]. right.
      destruct (Hseen next Hin) as [i Hi]. exists i. simpl. by rewrite Hnext.
    + destruct (IH next (Some (seen project projects))) as [[j Hj] Hstop];
        [|done|].
      * intros v Hv. simpl in Hv. apply elem_of_union in Hv as [Hv|Hv].
        -- apply elem_of_singleton in Hv as ->. by exists 0.
        -- destruct (Hseen v Hv) as [i Hi]. exists (S i).
           by apply (ascend_S_r i v project).
      * split; [|done]. exists (S j). simpl. by rewrite Hnext.
  - injection Hq as <-. split; [by exists 0 | by left].
Qed.

Lemma canonical_project_stop (project : P) :
  (∃ j, ascend db j project = Some (_get_canonical_project db project))
  ∧ (next_project db (_get_canonical_project db project) = None
     ∨ ∃ i, ascend db (S i) (_get_canonical_project db project)
            = Some (_get_canonical_project db project)).
Proof.
  apply (get_canonical_project_rec_stop (card P) project _ None).
  - intros v Hv. simpl in Hv. apply elem_of_singleton in Hv as ->. by exists 0.
  - apply get_canonical_project_returns.
Qed.

Lemma canonical_project_of_root (r : P) :
  next_project db r = None → _get_canonical_project db r = r.
Proof.
  intros Hr. pose proof (get_canonical_project_returns r) as Hret.
  destruct (card P) as [|n]; [done|].
  simpl in Hret. rewrite Hr in Hret. congruence.
Qed.

(** Above a project that reaches a root, the canonical project is that
    root. *)
Lemma canonical_project_root (d : nat) (project r : P) :
  ascend db d project = Some r → next_project db r = None →
  _get_canonical_project db project = r.
Proof.
  intros Hd Hr.
  destruct (canonical_project_stop project) as [[j Hj] [Hroot|[i Hcyc]]].
  - by destruct (ascend_root_unique j d project _ r Hj Hroot Hd Hr).
  - exfalso.
    assert (j ≤ d) as Hjd.
    { destruct (decide (j ≤ d)) as [|Hgt]; [done|].
      replace j with (d + (j - d)) in Hj by lia.
      rewrite ascend_add, Hd in Hj. simpl in Hj.
      rewrite ascend_root_None in Hj; [done | done | lia]. }
    replace d with (j + (d - j)) in Hd by lia.
    rewrite ascend_add, Hj in Hd. simpl in Hd.
    by apply (ascend_root_no_cycle (d - j) (S i) _ r Hd Hr); [lia|].
Qed.

(** Every project above one that reaches a root reaches that root. *)
Lemma ascend_root_above (d j : nat) (p q r : P) :
  ascend db d p = Some r → next_project db r = None → ascend db j p = Some q →
  j ≤ d ∧ ascend db (d - j) q = Some r.
Proof.
  intros Hd Hr Hj.
  assert (j ≤ d) as Hjd.
  { destruct (decide (j ≤ d)) as [|Hgt]; [done|].
    replace j with (d + (j - d)) in Hj by lia.
    rewrite ascend_add, Hd in Hj. simpl in Hj.
    rewrite ascend_root_None in Hj; [done | done | lia]. }
  split; [done|].
  replace d with (j + (d - j)) in Hd by lia.
  by rewrite ascend_add, Hj in Hd.
Qed.

Lemma acyclic_above_of_root (d : nat) (p r : P) :
  ascend db d p = Some r → next_project db r = None → acyclic_above db p.
Proof.
  intros Hd Hr j q k Hj Hk.
  destruct (ascend_root_above d j p q r Hd Hr Hj) as [_ Hq].
  by apply (ascend_root_no_cycle (d - j) k q r).
Qed.

(** On a cycle of length [k] through [p], the recursion started at [p]
    returns within [k] calls, at a project fewer than [k] hops above [p]. *)
Lemma get_canonical_project_rec_cycle (k : nat) (p : P) :
  ascend db k p = Some p →
  ∀ (fuel j : nat) (cur : P) (projects : option (gset P)),
    ascend db j p = Some cur → j + fuel = k → 1 ≤ fuel →
    p ∈ seen cur projects →
    ∃ q j', get_canonical_project_rec db fuel cur projects = Some q
            ∧ j' < k ∧ ascend db j' p = Some q.
Proof.
  intros Hcyc fuel.
  induction fuel as [|fuel IH]; intros j cur projects Hj Hk Hfuel Hp; [lia|].
  simpl. fold (seen cur projects).
  destruct (next_project db cur) as [next|] eqn:Hnext.
  - case_decide as Hin.
    + exists cur, j. split; [done|]. split; [lia | done].
    + pose proof (ascend_S_r j p cur next Hj Hnext) as Hj'.
      apply (IH (S j)); [done | lia | | set_solver].
      destruct fuel; [|lia].
      replace (S j) with k in Hj' by lia.
      assert (next = p) as -> by congruence. done.
  - exists cur, j. split; [done|]. split; [lia | done].
Qed.

(** *** The hierarchy walk of [resolve_path] *)

Lemma walk_step_current (project : P) (w : walk_vars) :
  w_current_project <$> walk_step db project w
  = next_project db (w_current_project w).
Proof.
  unfold walk_step, next_project.
  destruct (Project.main_language_project (db (w_current_project w))); [done|].
  by destruct (get_parent_relationship db (w_current_project w)).
Qed.

Lemma walk_step_slug (project : P) (w w' : walk_vars) :
  walk_step db project w = Some w' →
  w_project_slug w' = Project.slug (db (w_current_project w')).
Proof.
  unfold walk_step.
  destruct (Project.main_language_project (db (w_current_project w))).
  - by intros [= <-].
  - destruct (get_parent_relationship db (w_current_project w)); [|done].
    by intros [= <-].
Qed.

Lemma walk_slug (n : nat) (project : P) (w : walk_vars) :
  w_project_slug w = Project.slug (db (w_current_project w)) →
  w_project_slug (walk db n project w)
  = Project.slug (db (w_current_project (walk db n project w))).
Proof.
  revert w. induction n as [|n IH]; intros w Hw; simpl; [done|].
  destruct (walk_step db project w) as [w'|] eqn:Hstep; [|done].
  apply IH. by apply (walk_step_slug project w).
Qed.

(** A walk of [n] iterations below a root at distance [d] stops after
    [min d n] hops. *)
Lemma walk_current (n d : nat) (project r : P) (w : walk_vars) :
  ascend db d (w_current_project w) = Some r → next_project db r = None →
  ascend db (d `min` n) (w_current_project w)
  = Some (w_current_project (walk db n project w)).
Proof.
  revert d w. induction n as [|n IH]; intros d w Hd Hr.
  - by rewrite Nat.min_0_r.
  - pose proof (walk_step_current project w) as Hstep. simpl.
    destruct d as [|d]; simpl in Hd.
    + injection Hd as Heq. rewrite Heq, Hr in Hstep.
      by destruct (walk_step db project w).
    + simpl. destruct (next_project db (w_current_project w)) as [x|]; [|done].
      destruct (walk_step db project w) as [w'|]; [|done].
      injection Hstep as Hx. subst x. by apply IH.
Qed.

Lemma walk_language_fixed (n : nat) (project : P) (w : walk_vars) :
  w_language w = Project.language (db project) →
  w_language (walk db n project w) = Project.language (db project).
Proof.
  revert w. induction n as [|n IH]; intros w Hw; simpl; [done|].
  destruct (walk_step db project w) as [w'|] eqn:Hstep; [|done].
  apply IH. unfold walk_step in Hstep.
  destruct (Project.main_language_project (db (w_current_project w))).
  - by injection Hstep as <-.
  - destruct (get_parent_relationship db (w_current_project w)); [|done].
    by injection Hstep as <-.
Qed.

(** *** The claims on the canonical project and the walk *)

(** C6: the canonical project of a canonical project is that project again,
    for every project whose hierarchy holds no cycle. *)
Theorem canonical_project_idempotent (project : P) :
  acyclic_above db project →
  _get_canonical_project db (_get_canonical_project db project)
  = _get_canonical_project db project.
Proof.
  intros Hacyclic. apply canonical_project_of_root.
  destruct (canonical_project_stop project) as [[j Hj] [Hroot|[i Hcyc]]];
    [done|].
  exfalso. by apply (Hacyclic j _ (S i) Hj); [lia|].
Qed.

(** C7: the ascent returns on every input. With the number of rows as
    fuel the call returns the canonical project; on a cycle of length [k]
    through the input, [k] calls are enough and the result lies fewer than
    [k] hops above the input; the visited set starts as the input alone;
    and a call whose next project is already visited returns its own
    project at once, as a plain result. *)
Theorem canonical_project_terminates (project : P) :
  get_canonical_project_rec db (card P) project None
  = Some (_get_canonical_project db project)
  ∧ seen project None = {[project]}
  ∧ (∀ k : nat,
       0 < k → ascend db k project = Some project →
       get_canonical_project_rec db k project None
       = Some (_get_canonical_project db project)
       ∧ ∃ j, j < k ∧ ascend db j project = Some (_get_canonical_project db project))
  ∧ (∀ (fuel : nat) (cur next : P) (projects : option (gset P)),
       next_project db cur = Some next → next ∈ seen cur projects →
       get_canonical_project_rec db (S fuel) cur projects = Some cur).
Proof.
  split; [apply get_canonical_project_returns|].
  split; [done|]. split.
  - intros k Hk Hcyc.
    destruct (get_canonical_project_rec_cycle k project Hcyc k 0 project None)
      as (q & j & Hq & Hj & Hjq); [done | lia | lia | set_solver |].
    pose proof (get_canonical_project_returns project) as Hret.
    rewrite (get_canonical_project_rec_agree _ _ _ _ _ _ Hret Hq).
    split; [done | by exists j].
  - intros fuel cur next projects Hnext Hin. simpl.
    fold (seen cur projects). rewrite Hnext. by rewrite decide_True.
Qed.

(** C2: the walk of [resolve_path] makes at most two hops. Below a root at
    distance [d] it stops at the project [min d 2] hops up, whose slug the
    path is built from, while the canonical project is the root: the two
    agree when [d] is at most two and differ when it is larger. *)
Theorem walk_two_hops
    (project : P) (d : nat) (root : P)
    (language : option string) (cname : pyval) :
  ascend db d project = Some root → next_project db root = None →
  let w := resolve_path_walk db project language cname in
  _get_canonical_project db project = root
  ∧ ascend db (d `min` 2) project = Some (w_current_project w)
  ∧ w_project_slug w = Project.slug (db (w_current_project w))
  ∧ (d ≤ 2 → w_current_project w = _get_canonical_project db project)
  ∧ (2 < d → w_current_project w ≠ _get_canonical_project db project).
Proof.
  intros Hd Hr w.
  pose proof (canonical_project_root d project root Hd Hr) as Hcanon.
  assert (ascend db (d `min` 2) project = Some (w_current_project w)) as Hw.
  { unfold w, resolve_path_walk. by rewrite <- (walk_current 2 d project root). }
  split; [done|]. split; [done|]. split.
  { unfold w, resolve_path_walk. by apply walk_slug. }
  rewrite Hcanon. split.
  - intros Hle. rewrite Nat.min_l in Hw by done. congruence.
  - intros Hlt Heq. rewrite Nat.min_r in Hw by lia. rewrite Heq in Hw.
    destruct (ascend_root_unique 2 d project root root Hw Hr Hd Hr). lia.
Qed.

(** C9: in an iteration whose current project has a translation parent,
    the walk moves to that parent and takes its slug, sets the language to
    the language of the project [resolve_path] was called for, and clears
    the subproject alias; the language stays that one until the walk ends,
    whatever language the caller passed. *)
Theorem walk_translation_parent
    (project : P) (w : walk_vars) (main_language_project : P) (n : nat) :
  Project.main_language_project (db (w_current_project w))
  = Some main_language_project →
  walk_step db project w
  = Some {| w_current_project := main_language_project;
            w_project_slug := Project.slug (db main_language_project);
            w_language := Project.language (db project);
            w_subproject_slug := None;
            w_cname := w_cname w |}
  ∧ w_language (walk db (S n) project w) = Project.language (db project).
Proof.
  intros Hmain.
  assert (walk_step db project w
          = Some {| w_current_project := main_language_project;
                    w_project_slug := Project.slug (db main_language_project);
                    w_language := Project.language (db project);
                    w_subproject_slug := None;
                    w_cname := w_cname w |}) as Hstep.
  { unfold walk_step. by rewrite Hmain. }
  split; [done|]. simpl. rewrite Hstep. by apply walk_language_fixed.
Qed.

(** C3, as the code has it: in an iteration whose current project has no
    translation parent but a subproject relation, the walk moves to the
    relation's parent, takes its slug and the relation's alias, keeps the
    language, and sets the cname to the parent's first canonical domain,
    which is [None] when the parent has none: the cname held before is
    dropped either way. *)
Theorem walk_subproject_relation
    (project : P) (w : walk_vars) (relation : ProjectRelationship.t P) :
  Project.main_language_project (db (w_current_project w)) = None →
  get_parent_relationship db (w_current_project w) = Some relation →
  walk_step db project w
  = Some {| w_current_project := ProjectRelationship.parent relation;
            w_project_slug :=
              Project.slug (db (ProjectRelationship.parent relation));
            w_language := w_language w;
            w_subproject_slug := Some (ProjectRelationship.alias relation);
            w_cname :=
              match first_canonical_domain db
                      (ProjectRelationship.parent relation) with
              | Some d => PyDomain d
              | None => PyNone
              end |}.
Proof.
  intros Hmain Hrelation. unfold walk_step. by rewrite Hmain, Hrelation.
Qed.

(** *** The claims on paths, domains and protocols *)

Lemma base_resolve_path_shape
    (project_slug filename : string) (version_slug language : option string)
    (single_version : option bool) (subproject_slug : option string)
    (subdomain cname : pyval) :
  base_resolve_path settings project_slug filename version_slug language
    single_version subproject_slug subdomain cname
  = spec_path
      (truthy subdomain || truthy cname || _use_subdomain settings)
      project_slug (pending_alias subproject_slug)
      (default false single_version)
      (str_format language) (str_format version_slug) filename.
Proof.
  unfold base_resolve_path, spec_path, pending_alias.
  destruct subproject_slug as [alias|]; simpl.
  - destruct (str_truthy alias); simpl.
    + by destruct (default false single_version).
    + rewrite str_app_nil_r. by destruct (default false single_version).
  - rewrite str_app_nil_r. by destruct (default false single_version).
Qed.

(** C5: the path [resolve_path] returns is the root, [/] when a subdomain
    or a cname is in effect or the platform serves under subdomains and
    [/docs/{project_slug}/] otherwise, then [projects/{alias}/] when an
    alias is pending, then the file name alone for a single-version project
    and behind language and version otherwise; single-version holds exactly
    when the project [resolve_path] was called for is single-version or
    the caller passed true. [base_resolve_path] fills the same template. *)
Theorem resolve_path_shape
    (project : P) (filename : string) (version_slug language : option string)
    (single_version : option bool) (subdomain cname : pyval) :
  let w := resolve_path_walk db project language cname in
  resolve_path settings db project filename version_slug language
    single_version subdomain cname
  = spec_path
      (truthy subdomain || truthy (w_cname w) || _use_subdomain settings)
      (w_project_slug w) (pending_alias (w_subproject_slug w))
      (Project.single_version (db project)
       || bool_decide (single_version = Some true))
      (w_language w)
      (str_or version_slug (get_default_version db project))
      (str_lstrip "/" filename)
  ∧ ∀ (project_slug : string) (subproject_slug : option string)
      (version_slug language : option string),
      base_resolve_path settings project_slug filename version_slug language
        single_version subproject_slug subdomain cname
      = spec_path
          (truthy subdomain || truthy cname || _use_subdomain settings)
          project_slug (pending_alias subproject_slug)
          (bool_decide (single_version = Some true))
          (str_format language) (str_format version_slug) filename.
Proof.
  assert (default false single_version
          = bool_decide (single_version = Some true)) as Hsv.
  { by destruct single_version as [[]|]. }
  split.
  - unfold resolve_path. rewrite base_resolve_path_shape. simpl.
    by rewrite Hsv.
  - intros. rewrite base_resolve_path_shape. by rewrite Hsv.
Qed.

(** C1: [resolve] picks the domain by strict priority. For an external
    version it is the external-subdomain form, whatever custom domain or
    subdomain routing there is; else the canonical custom domain of the
    canonical project when there is one; else the generated subdomain when
    subdomain routing is on and a public domain is set; else the
    production domain. [resolve_domain] is the same chain without the
    external case. *)
Theorem resolve_domain_priority
    (project : P) (require_https : bool) (filename query_params : string)
    (external : option bool) (version_slug language : option string)
    (single_version : option bool) (subdomain cname : pyval) :
  let version := default (get_default_version db project) version_slug in
  let is_external := default (_is_external db project version) external in
  let canonical_project := _get_canonical_project db project in
  let custom_domain := get_canonical_custom_domain db canonical_project in
  let domain :=
    u_domain (resolve_components settings db project require_https filename
                query_params external version_slug language single_version
                subdomain cname) in
  (is_external = true →
   domain = _get_external_subdomain settings db canonical_project version)
  ∧ (is_external = false →
     ∀ d, custom_domain = Some d → domain = Domain.domain d)
  ∧ (is_external = false → custom_domain = None →
     USE_SUBDOMAIN settings = true →
     ∀ public_domain, PUBLIC_DOMAIN settings = Some public_domain →
     domain
     = str_replace "_" "-" (Project.slug (db canonical_project))
       ++ "." ++ public_domain)
  ∧ (is_external = false → custom_domain = None →
     USE_SUBDOMAIN settings = false ∨ PUBLIC_DOMAIN settings = None →
     domain = PRODUCTION_DOMAIN settings)
  ∧ domain
    = spec_select_domain settings is_external custom_domain
        (_get_external_subdomain settings db canonical_project version)
        (_get_project_subdomain settings db canonical_project)
  ∧ resolve_domain settings db project
    = spec_select_domain settings false custom_domain
        (_get_external_subdomain settings db canonical_project version)
        (_get_project_subdomain settings db canonical_project).
Proof.
  intros version is_external canonical_project custom_domain domain.
  assert (domain
          = spec_select_domain settings is_external custom_domain
              (_get_external_subdomain settings db canonical_project version)
              (_get_project_subdomain settings db canonical_project)) as Hspec.
  { unfold domain, resolve_components, spec_select_domain. simpl.
    fold canonical_project. fold custom_domain.
    unfold is_external, version.
    by destruct external as [[]|], version_slug. }
  unfold spec_select_domain in Hspec.
  split; [|split; [|split; [|split; [|split]]]].
  - intros Hext. by rewrite Hext in Hspec.
  - intros Hext d Hd. by rewrite Hext, Hd in Hspec.
  - intros Hext Hcustom Huse public_domain Hpublic.
    rewrite Hext, Hcustom, Huse, Hpublic in Hspec. rewrite Hspec.
    unfold _get_project_subdomain. by rewrite Hpublic.
  - intros Hext Hcustom Hoff. rewrite Hext, Hcustom in Hspec. rewrite Hspec.
    by destruct Hoff as [-> | ->]; [|rewrite andb_false_r].
  - done.
  - unfold resolve_domain, spec_select_domain, _use_subdomain.
    fold canonical_project. fold custom_domain. by destruct custom_domain.
Qed.

(** The expression [use_https_protocol] of [resolve], term by term. *)
Lemma use_https_protocol_terms
    (project : P) (require_https : bool) (filename query_params : string)
    (external : option bool) (version_slug language : option string)
    (single_version : option bool) (subdomain cname : pyval) :
  let u :=
    resolve_components settings db project require_https filename
      query_params external version_slug language single_version
      subdomain cname in
  let custom_domain :=
    get_canonical_custom_domain db (_get_canonical_project db project) in
  (u_protocol u = "https"
   ↔ (∃ d, custom_domain = Some d ∧ Domain.https d = true)
     ∨ require_https = true
     ∨ (PUBLIC_DOMAIN_USES_HTTPS settings = true
        ∧ ∃ public_domain,
            PUBLIC_DOMAIN settings = Some public_domain
            ∧ public_domain ≠ ""
            ∧ (str_in public_domain (u_domain u) = true
               ∨ str_in (RTD_EXTERNAL_VERSION_DOMAIN settings) (u_domain u)
                 = true)))
  ∧ (u_protocol u = "https" ∨ u_protocol u = "http")
  ∧ (u_protocol u = "https"
     ↔ (∃ d, custom_domain = Some d ∧ Domain.https d = true)
       ∨ require_https = true
       ∨ https_public settings (u_domain u) = true).
Proof.
  intros u custom_domain.
  set (a := match custom_domain with
            | Some d => Domain.https d
            | None => false
            end).
  assert (u_protocol u
          = if a || require_https || https_public settings (u_domain u)
            then "https" else "http") as Hprotocol by done.
  assert (a = true ↔ ∃ d, custom_domain = Some d ∧ Domain.https d = true)
    as Ha.
  { unfold a. destruct custom_domain as [d|].
    - split; [by exists d | by intros (? & [= <-] & ?)].
    - split; [done | by intros (? & ? & ?)]. }
  assert (https_public settings (u_domain u) = true
          ↔ PUBLIC_DOMAIN_USES_HTTPS settings = true
            ∧ ∃ public_domain,
                PUBLIC_DOMAIN settings = Some public_domain
                ∧ public_domain ≠ ""
                ∧ (str_in public_domain (u_domain u) = true
                   ∨ str_in (RTD_EXTERNAL_VERSION_DOMAIN settings) (u_domain u)
                     = true)) as Hc.
  { unfold https_public. rewrite andb_true_iff.
    destruct (PUBLIC_DOMAIN settings) as [pd|].
    - rewrite andb_true_iff, orb_true_iff. split.
      + intros (? & Hpd & ?). split; [done|]. exists pd.
        split; [done|]. split; [by destruct pd | done].
      + intros (? & pd' & [= <-] & Hpd & ?). by destruct pd.
    - split; [by intros [_ ?] | by intros (_ & ? & ? & _)]. }
  assert (u_protocol u = "https"
          ↔ (∃ d, custom_domain = Some d ∧ Domain.https d = true)
            ∨ require_https = true
            ∨ https_public settings (u_domain u) = true) as Hiff.
  { rewrite Hprotocol, <- Ha.
    destruct a, require_https, (https_public settings (u_domain u));
      simpl; intuition (auto; discriminate). }
  split; [by rewrite <- Hc|]. split; [|done].
  rewrite Hprotocol.
  destruct (a || require_https || https_public settings (u_domain u)); auto.
Qed.

(** C4, as the code has it by design: the scheme is [https] whenever a
    custom domain is in use and its https flag is set, or the caller
    requires https, or https is enforced for the public domain, a public
    domain is set and not empty, and the resolved domain contains the
    public domain or the external-version domain; each of the three is
    enough alone. Apart from the case of an external version whose
    canonical project has a custom domain with the https flag set, on
    which nothing is stated, the scheme is [https] only then and [http]
    otherwise. *)
Theorem resolve_protocol
    (project : P) (require_https : bool) (filename query_params : string)
    (external : option bool) (version_slug language : option string)
    (single_version : option bool) (subdomain cname : pyval) :
  let u :=
    resolve_components settings db project require_https filename
      query_params external version_slug language single_version
      subdomain cname in
  let in_use := custom_domain_in_use_https db project external version_slug in
  let enforced :=
    PUBLIC_DOMAIN_USES_HTTPS settings = true
    ∧ ∃ public_domain,
        PUBLIC_DOMAIN settings = Some public_domain
        ∧ public_domain ≠ ""
        ∧ (str_in public_domain (u_domain u) = true
           ∨ str_in (RTD_EXTERNAL_VERSION_DOMAIN settings) (u_domain u)
             = true) in
  (in_use ∨ require_https = true ∨ enforced → u_protocol u = "https")
  ∧ (¬ custom_domain_unused_https db project external version_slug →
     (u_protocol u = "https" ↔ in_use ∨ require_https = true ∨ enforced)
     ∧ (¬ (in_use ∨ require_https = true ∨ enforced) →
        u_protocol u = "http")).
Proof.
  intros u in_use enforced.
  destruct (use_https_protocol_terms project require_https filename
              query_params external version_slug language single_version
              subdomain cname) as (Hiff & Hscheme & _).
  fold u in Hiff, Hscheme. fold enforced in Hiff.
  assert (in_use ∨ require_https = true ∨ enforced → u_protocol u = "https")
    as Hsufficient.
  { intros [[_ Hflag]|Hrest]; apply Hiff; [by left | by right]. }
  split; [done|]. intros Hunused.
  assert (u_protocol u = "https" → in_use ∨ require_https = true ∨ enforced)
    as Hnecessary.
  { intros Hhttps. apply Hiff in Hhttps as [Hflag|Hrest]; [|by right].
    left. split; [|done].
    destruct (default
                (_is_external db project
                   (default (get_default_version db project) version_slug))
                external) eqn:Hext; [|done].
    exfalso. apply Hunused. by split. }
  split; [by split|].
  intros Hnone. destruct Hscheme as [Hhttps|Hhttp]; [|done].
  exfalso. by apply Hnone, Hnecessary.
Qed.

(** C8: for an external version the host name [resolve] returns is the
    slug of the canonical project with every underscore replaced by a
    hyphen, two hyphens, the version slug, a dot and the external-version
    domain; slug [my_project], version [pr-42] and domain
    [build.example.com] give [my-project--pr-42.build.example.com]. *)
Theorem external_hostname
    (project : P) (require_https : bool) (filename query_params : string)
    (external : option bool) (version_slug language : option string)
    (single_version : option bool) (subdomain cname : pyval) :
  let version := default (get_default_version db project) version_slug in
  let slug := Project.slug (db (_get_canonical_project db project)) in
  let domain :=
    u_domain (resolve_components settings db project require_https filename
                query_params external version_slug language single_version
                subdomain cname) in
  default (_is_external db project version) external = true →
  domain
  = str_replace "_" "-" slug ++ "--" ++ version ++ "."
    ++ RTD_EXTERNAL_VERSION_DOMAIN settings
  ∧ (∀ i, String.get i (str_replace "_" "-" slug)
          = (λ c, if Ascii.eqb c "_" then "-"%char else c)
              <$> String.get i slug)
  ∧ (slug = "my_project" → version = "pr-42" →
     RTD_EXTERNAL_VERSION_DOMAIN settings = "build.example.com" →
     domain = "my-project--pr-42.build.example.com").
Proof.
  intros version slug domain Hext.
  assert (domain
          = str_replace "_" "-" slug ++ "--" ++ version ++ "."
            ++ RTD_EXTERNAL_VERSION_DOMAIN settings) as Hdomain.
  { unfold domain, resolve_components, slug, version in *.
    destruct external as [[]|], version_slug as [v|]; simpl in *;
      try done; by rewrite Hext. }
  split; [done|]. split; [intros i; apply str_replace_get|].
  intros Hslug Hversion Hsetting.
  by rewrite Hdomain, Hslug, Hversion, Hsetting.
Qed.

Lemma get_canonical_project_rec_with_versions
    (versions : P → list Version.t)
    (fuel : nat) (project : P) (projects : option (gset P)) :
  get_canonical_project_rec (with_versions versions db)
    fuel project projects
  = get_canonical_project_rec db fuel project projects.
Proof.
  revert project projects.
  induction fuel as [|fuel IH]; intros project projects; [done|].
  simpl. change (next_project (with_versions versions db) project)
    with (next_project db project).
  destruct (next_project db project) as [next|]; [|done].
  case_decide; [done | apply IH].
Qed.

(** C10: the [external] argument of [resolve] comes before the stored
    version type. With [external=False] the domain is the one of
    [resolve_domain]; with [external=True] it is the external host name;
    in both cases the result is the same whatever versions are stored; the
    stored type is looked up, by version slug, only for [external=None]. *)
Theorem resolve_external_flag
    (project : P) (require_https : bool) (filename query_params : string)
    (version_slug language : option string)
    (single_version : option bool) (subdomain cname : pyval) :
  let version := default (get_default_version db project) version_slug in
  let resolve_with db external :=
    resolve_components settings db project require_https filename
      query_params external version_slug language single_version
      subdomain cname in
  u_domain (resolve_with db (Some false)) = resolve_domain settings db project
  ∧ u_domain (resolve_with db (Some true))
    = _get_external_subdomain settings db
        (_get_canonical_project db project) version
  ∧ resolve_with db None
    = resolve_with db (Some (_is_external db project version))
  ∧ ∀ (b : bool) (versions : P → list Version.t),
      resolve_with (with_versions versions db) (Some b)
      = resolve_with db (Some b).
Proof.
  intros version resolve_with.
  assert (∀ versions,
            _get_canonical_project (with_versions versions db) project
            = _get_canonical_project db project) as Hcanon.
  { intros versions. unfold _get_canonical_project.
    by rewrite get_canonical_project_rec_with_versions. }
  split; [|split; [|split]].
  - unfold resolve_with, resolve_components, resolve_domain. simpl.
    by destruct (get_canonical_custom_domain db (_get_canonical_project db project)).
  - unfold resolve_with, resolve_components. simpl.
    unfold version. by destruct version_slug.
  - unfold resolve_with, resolve_components. unfold version.
    by destruct version_slug.
  - intros b versions. unfold resolve_with, resolve_components.
    rewrite Hcanon. reflexivity.
Qed.

End Properties.

(** ** The claims at concrete tables *)

Local Open Scope nat_scope.

Lemma canonical_project_idempotent_witness :
  acyclic_above db_chain pk1
  ∧ _get_canonical_project db_chain (_get_canonical_project db_chain pk1)
    = _get_canonical_project db_chain pk1.
Proof.
  assert (acyclic_above db_chain pk1) as Hacyclic.
  { apply (acyclic_above_of_root db_chain 3 pk1 pk4); reflexivity. }
  split; [exact Hacyclic|].
  apply (canonical_project_idempotent db_chain pk1 Hacyclic).
Defined.

(** On the cycle the hypothesis of C6 cannot be dropped. *)
Example canonical_project_cycle_not_idempotent :
  _get_canonical_project db_cycle pk1 = pk4
  ∧ _get_canonical_project db_cycle pk4 = pk3.
Proof. split; reflexivity. Qed.

Lemma canonical_project_terminates_witness :
  (0 < 4 ∧ ascend db_cycle 4 pk1 = Some pk1)
  ∧ (get_canonical_project_rec db_cycle 4 pk1 None
     = Some (_get_canonical_project db_cycle pk1)
     ∧ ∃ j, j < 4
            ∧ ascend db_cycle j pk1 = Some (_get_canonical_project db_cycle pk1))
  ∧ (next_project db_cycle pk4 = Some pk1
     ∧ pk1 ∈ seen pk4 (Some {[pk1]})
     ∧ get_canonical_project_rec db_cycle 1 pk4 (Some {[pk1]}) = Some pk4).
Proof.
  destruct (canonical_project_terminates db_cycle pk1)
    as (_ & _ & Hcycle & Hstop).
  assert (pk1 ∈ seen pk4 (Some {[pk1]})) as Hin.
  { apply (bool_decide_unpack _). reflexivity. }
  split; [split; [lia | reflexivity]|].
  split; [apply (Hcycle 4); [lia | reflexivity]|].
  split; [reflexivity|]. split; [exact Hin|].
  apply (Hstop 0 pk4 pk1 (Some {[pk1]})); [reflexivity | exact Hin].
Defined.

Lemma walk_two_hops_witness :
  (ascend db_chain 3 pk1 = Some pk4 ∧ next_project db_chain pk4 = None
   ∧ w_current_project (resolve_path_walk db_chain pk1 None PyNone)
     ≠ _get_canonical_project db_chain pk1)
  ∧ (ascend db_chain 2 pk2 = Some pk4
     ∧ w_current_project (resolve_path_walk db_chain pk2 None PyNone)
       = _get_canonical_project db_chain pk2).
Proof.
  split.
  - split; [reflexivity|]. split; [reflexivity|].
    apply (walk_two_hops db_chain pk1 3 pk4 None PyNone);
      [reflexivity | reflexivity | lia].
  - split; [reflexivity|].
    apply (walk_two_hops db_chain pk2 2 pk4 None PyNone);
      [reflexivity | reflexivity | lia].
Defined.

(** The path of the deepest project of the chain is built from pk3, two
    hops up, while its domain is that of the root pk4. *)
Example walk_two_hops_chain :
  resolve settings_subdomain db_chain pk1 false "index.html" ""
    None None None None PyNone PyNone
  = "http://four.readthedocs.io/en/latest/index.html"
  ∧ w_project_slug (resolve_path_walk db_chain pk1 None PyNone) = "three".
Proof. split; reflexivity. Qed.

Lemma walk_translation_parent_witness :
  Project.main_language_project (db_chain (w_current_project w_chain_start))
  = Some pk3
  ∧ walk_step db_chain pk2 w_chain_start
    = Some {| w_current_project := pk3;
              w_project_slug := Project.slug (db_chain pk3);
              w_language := Project.language (db_chain pk2);
              w_subproject_slug := None;
              w_cname := w_cname w_chain_start |}
  ∧ w_language (walk db_chain 2 pk2 w_chain_start)
    = Project.language (db_chain pk2).
Proof.
  split; [reflexivity|].
  apply (walk_translation_parent db_chain pk2 w_chain_start pk3 1).
  reflexivity.
Defined.

(** The caller asks for [de]; the translation parent's language is [en];
    the path carries [fr], the language of the project itself. *)
Example walk_translation_parent_path :
  resolve_path settings_subdomain db_chain pk2 "index.html"
    None (Some "de") None PyNone PyNone
  = "/projects/third/fr/latest/index.html".
Proof. reflexivity. Qed.

Lemma walk_subproject_relation_witness :
  Project.main_language_project (db_sub (w_current_project w_sub_start)) = None
  ∧ get_parent_relationship db_sub (w_current_project w_sub_start)
    = Some (ProjectRelationship.mk pk2 "api")
  ∧ walk_step db_sub pk1 w_sub_start = Some w_sub_parent.
Proof.
  split; [reflexivity|]. split; [reflexivity|].
  apply (walk_subproject_relation db_sub pk1 w_sub_start
           (ProjectRelationship.mk pk2 "api"));
    reflexivity.
Defined.

(** C3 as the specification words it fails: pk1 of [db_sub] has a custom
    domain, its parent pk2 has none, and the subproject step leaves no
    cname. *)
Lemma cname_not_kept_without_parent_domain :
  ¬ cname_kept_without_parent_domain db_sub.
Proof.
  intros Hkept.
  specialize (Hkept pk1 w_sub_start w_sub_parent
                (ProjectRelationship.mk pk2 "api")
                eq_refl eq_refl eq_refl eq_refl).
  discriminate Hkept.
Qed.

(** The effect on the path: the development root appears although the
    project has a custom domain. *)
Example cname_dropped_path :
  resolve_path settings_development db_sub pk1 "index.html"
    None None None PyNone PyNone
  = "/docs/parent/projects/api/en/latest/index.html".
Proof. reflexivity. Qed.

Lemma resolve_domain_priority_witness :
  u_domain (resolve_components settings_subdomain db_sub pk3 false "" ""
              None (Some "pr-42") None None PyNone PyNone)
  = "with-domain--pr-42.build.example.com"
  ∧ u_domain (resolve_components settings_subdomain db_sub pk3 false "" ""
                None None None None PyNone PyNone)
    = "docs.example.com"
  ∧ u_domain (resolve_components settings_subdomain db_sub pk4 false "" ""
                None None None None PyNone PyNone)
    = "my-project.readthedocs.io"
  ∧ u_domain (resolve_components settings_development db_sub pk4 false "" ""
                None None None None PyNone PyNone)
    = "localhost:8000".
Proof.
  split; [|split; [|split]].
  - destruct (resolve_domain_priority settings_subdomain db_sub pk3 false ""
                "" None (Some "pr-42") None None PyNone PyNone)
      as (Hexternal & _).
    exact (Hexternal eq_refl).
  - destruct (resolve_domain_priority settings_subdomain db_sub pk3 false ""
                "" None None None None PyNone PyNone)
      as (_ & Hcustom & _).
    exact (Hcustom eq_refl docs_example_com eq_refl).
  - destruct (resolve_domain_priority settings_subdomain db_sub pk4 false ""
                "" None None None None PyNone PyNone)
      as (_ & _ & Hsubdomain & _).
    exact (Hsubdomain eq_refl eq_refl eq_refl "readthedocs.io"%string eq_refl).
  - destruct (resolve_domain_priority settings_development db_sub pk4 false ""
                "" None None None None PyNone PyNone)
      as (_ & _ & _ & Hproduction & _).
    exact (Hproduction eq_refl eq_refl (or_introl eq_refl)).
Defined.

(** C4 as the specification words it fails: https is enforced for the
    public domain but no public domain is set; the external host name
    contains the external-version domain, and the scheme is [http]. *)
Lemma resolve_protocol_needs_public_domain :
  ¬ spec_https_claim settings_https_no_public db_sub pk4 false "" ""
      (Some true) (Some "pr-42") None None PyNone PyNone.
Proof.
  intros [_ Hclaim].
  assert (u_protocol
            (resolve_components settings_https_no_public db_sub pk4 false ""
               "" (Some true) (Some "pr-42") None None PyNone PyNone)
          = "https") as Hhttps.
  { apply Hclaim. right. right. reflexivity. }
  discriminate Hhttps.
Qed.

Lemma resolve_protocol_witness :
  u_protocol (resolve_components settings_development db_sub pk3 false "" ""
                None None None None PyNone PyNone)
  = "https"
  ∧ u_protocol (resolve_components settings_development db_sub pk4 true "" ""
                  None None None None PyNone PyNone)
    = "https"
  ∧ u_protocol (resolve_components settings_https db_sub pk4 false "" ""
                  None None None None PyNone PyNone)
    = "https"
  ∧ u_protocol (resolve_components settings_development db_sub pk4 false "" ""
                  None None None None PyNone PyNone)
    = "http".
Proof.
  split; [|split; [|split]].
  - destruct (resolve_protocol settings_development db_sub pk3 false "" ""
                None None None None PyNone PyNone) as (Hsufficient & _).
    apply Hsufficient. left. split; [reflexivity|].
    exists docs_example_com. split; reflexivity.
  - destruct (resolve_protocol settings_development db_sub pk4 true "" ""
                None None None None PyNone PyNone) as (Hsufficient & _).
    apply Hsufficient. right. left. reflexivity.
  - destruct (resolve_protocol settings_https db_sub pk4 false "" ""
                None None None None PyNone PyNone) as (Hsufficient & _).
    apply Hsufficient. right. right. split; [reflexivity|].
    exists "readthedocs.io"%string.
    split; [reflexivity|]. split; [discriminate|]. left. reflexivity.
  - destruct (resolve_protocol settings_development db_sub pk4 false "" ""
                None None None None PyNone PyNone) as (_ & Hotherwise).
    assert (¬ custom_domain_unused_https db_sub pk4 None None) as Hunused.
    { intros [Hexternal _]. discriminate Hexternal. }
    destruct (Hotherwise Hunused) as (_ & Hhttp).
    apply Hhttp. intros [[_ (d & Hd & _)]|[Hrequire|[Henforced _]]].
    + discriminate Hd.
    + discriminate Hrequire.
    + discriminate Henforced.
Defined.

(** The case the statement of C4 leaves open: the version is external,
    the host is the external one, and the scheme is [https] through the
    flag of a custom domain that is not in use. *)
Example resolve_protocol_unused_custom_domain :
  custom_domain_unused_https db_sub pk3 (Some true) (Some "pr-42")
  ∧ resolve settings_development db_sub pk3 false "" "" (Some true)
      (Some "pr-42") None None PyNone PyNone
    = "https://with-domain--pr-42.build.example.com/en/pr-42/"
  ∧ ¬ spec_https_claim settings_development db_sub pk3 false "" ""
        (Some true) (Some "pr-42") None None PyNone PyNone.
Proof.
  split; [split; [reflexivity | by exists docs_example_com]|].
  split; [reflexivity|].
  intros [Hclaim _].
  destruct (Hclaim eq_refl) as [[Hexternal _]|[Hrequire|Hpublic]];
    discriminate.
Qed.

Lemma external_hostname_witness :
  default (_is_external db_sub pk4 "pr-42") None = true
  ∧ u_domain (resolve_components settings_subdomain db_sub pk4 false "" ""
                None (Some "pr-42") None None PyNone PyNone)
    = "my-project--pr-42.build.example.com".
Proof.
  split; [reflexivity|].
  destruct (external_hostname settings_subdomain db_sub pk4 false "" ""
              None (Some "pr-42") None None PyNone PyNone eq_refl)
    as (_ & _ & Hexample).
  exact (Hexample eq_refl eq_refl eq_refl).
Defined.

(** For a subproject the slug in the external host name is the one of the
    canonical project. *)
Example external_hostname_subproject :
  resolve settings_subdomain db_sub pk1 false "/index.html" ""
    None (Some "pr-42") None None PyNone PyNone
  = "http://parent--pr-42.build.example.com/projects/api/en/pr-42/index.html".
Proof. reflexivity. Qed.

(** The caller's flag wins over the stored type in both directions. *)
Example resolve_external_flag_overrides :
  u_domain (resolve_components settings_subdomain db_sub pk4 false "" ""
              (Some false) (Some "pr-42") None None PyNone PyNone)
  = "my-project.readthedocs.io"
  ∧ u_domain (resolve_components settings_subdomain db_sub pk4 false "" ""
                (Some true) (Some "latest") None None PyNone PyNone)
    = "my-project--latest.build.example.com"
  ∧ u_domain (resolve_components settings_subdomain db_sub pk4 false "" ""
                (Some true) (Some "no-such-version") None None PyNone PyNone)
    = "my-project--no-such-version.build.example.com".
Proof. repeat split. Qed.

(** The path shapes the specification lists. *)
Example path_shapes :
  base_resolve_path settings_subdomain "p" "index.html" None None (Some true)
    None (PyBool true) PyNone
  = "/index.html"
  ∧ base_resolve_path settings_subdomain "p" "guide/intro.html"
      (Some "latest") (Some "en") (Some false) None (PyBool true) PyNone
    = "/en/latest/guide/intro.html"
  ∧ base_resolve_path settings_subdomain "p" "ref.html" (Some "stable")
      (Some "en") (Some false) (Some "api") PyNone PyNone
    = "/projects/api/en/stable/ref.html"
  ∧ base_resolve_path settings_development "docs-project" "x.html" None None
      (Some true) None PyNone PyNone
    = "/docs/docs-project/x.html"
  ∧ resolve_path settings_subdomain db_sub pk4 "/x.html" None None None
      PyNone PyNone
    = resolve_path settings_subdomain db_sub pk4 "x.html" None None None
        PyNone PyNone.
Proof. repeat split. Qed.

(** ** Further properties of the resolver *)

(** *** File names *)

Lemma str_lstrip_slashes (n : nat) (s : string) :
  str_lstrip "/" (string_of_list_ascii (repeat "/"%char n) ++ s)
  = str_lstrip "/" s.
Proof.
  induction n as [|n IH]; [done|].
  simpl repeat. simpl string_of_list_ascii. by rewrite str_app_cons.
Qed.

Lemma str_lstrip_no_slash (s : string) :
  String.prefix "/" (str_lstrip "/" s) = false.
Proof.
  induction s as [|a s IH]; [done|].
  simpl. destruct (Ascii.eqb a "/") eqn:Ha; [done|].
  apply Ascii.eqb_neq in Ha. cbn [String.prefix].
  destruct (Ascii.ascii_dec "/" a) as [Heq|]; [congruence | done].
Qed.

Lemma str_lstrip_id (s : string) :
  String.prefix "/" s = false → str_lstrip "/" s = s.
Proof.
  destruct s as [|a s]; [done|]. intros Hprefix. simpl.
  destruct (Ascii.eqb a "/") eqn:Ha; [|done].
  apply Ascii.eqb_eq in Ha as ->. simpl in Hprefix. by destruct s.
Qed.

Lemma str_lstrip_split (s : string) :
  ∃ n, s = string_of_list_ascii (repeat "/"%char n) ++ str_lstrip "/" s.
Proof.
  induction s as [|a s [n IH]]; [by exists 0|].
  simpl. destruct (Ascii.eqb a "/") eqn:Ha.
  - apply Ascii.eqb_eq in Ha as ->. exists (S n).
    simpl repeat. simpl string_of_list_ascii.
    rewrite str_app_cons. by rewrite <- IH.
  - by exists 0.
Qed.

(** No underscore is left in a slug after [replace('_', '-')]. *)
Lemma str_replace_no_underscore (s : string) :
  str_in "_" (str_replace "_" "-" s) = false.
Proof.
  induction s as [|c s IH]; [done|].
  cbn [str_replace str_in]. rewrite IH, orb_false_r.
  destruct (Ascii.eqb c "_") eqn:Hc.
  - reflexivity.
  - apply Ascii.eqb_neq in Hc. cbn [String.prefix].
    destruct (Ascii.ascii_dec "_" c) as [Heq|]; [congruence | done].
Qed.

Lemma str_replace_length (old new : ascii) (s : string) :
  String.length (str_replace old new s) = String.length s.
Proof. induction s as [|c s IH]; simpl; [done | by rewrite IH]. Qed.

Lemma str_in_app_r (n a : string) : str_in n (a ++ n) = true.
Proof.
  apply str_in_spec. exists a, ""%string. by rewrite str_app_nil_r.
Qed.

(** The first element of a filtered list, by position in the list. *)
Lemma head_filter_Some {A : Type} (F : A → Prop) `{∀ x, Decision (F x)}
    (l : list A) (x : A) :
  head (filter F l) = Some x
  ↔ ∃ l1 l2, l = (l1 ++ x :: l2)%list ∧ F x ∧ ∀ y, y ∈ l1 → ¬ F y.
Proof.
  induction l as [|a l IH].
  - split; [done | by intros ([|??] & ? & ? & _)].
  - rewrite filter_cons. destruct (decide (F a)) as [Ha|Ha].
    + simpl. split.
      * intros [= ->]. exists [], l. split; [done|]. split; [done|].
        intros y Hy. by apply elem_of_nil in Hy.
      * intros (l1 & l2 & Hl & Hx & Hl1). destruct l1 as [|b l1].
        -- by injection Hl as ->.
        -- injection Hl as -> _. exfalso. apply (Hl1 b); [|done].
           apply list_elem_of_here.
    + rewrite IH. split.
      * intros (l1 & l2 & -> & Hx & Hl1). exists (a :: l1), l2.
        split; [done|]. split; [done|].
        intros y Hy. apply elem_of_cons in Hy as [->|Hy]; [done | by apply Hl1].
      * intros (l1 & l2 & Hl & Hx & Hl1). destruct l1 as [|b l1].
        -- injection Hl as -> _. done.
        -- injection Hl as -> ->. exists l1, l2. split; [done|].
           split; [done|]. intros y Hy. apply Hl1. by apply list_elem_of_further.
Qed.

Lemma filter_none_nil {A : Type} (F : A → Prop) `{∀ x, Decision (F x)}
    (l : list A) :
  (∀ y, y ∈ l → ¬ F y) → filter F l = [].
Proof.
  intros Hl. destruct (filter F l) as [|x rest] eqn:Hfilter; [done|].
  assert (head (filter F l) = Some x) as Hx by by rewrite Hfilter.
  apply head_filter_Some in Hx as (l1 & l2 & -> & Hx & _).
  exfalso. apply (Hl x); [|done].
  apply elem_of_app. right. apply list_elem_of_here.
Qed.

Section MoreProperties.

Context {P : Type} `{Finite P}.
Variable settings : Settings.
Variable db : P → Project.t P.

(** [_fix_filename] removes exactly the leading slashes: the result does
    not start with a slash, the input is the result behind some number of
    slashes, and fixing a fixed name changes nothing. *)
Theorem fix_filename_strips_leading_slashes (project : P) (filename : string) :
  String.prefix "/" (_fix_filename project filename) = false
  ∧ (∃ n, filename
          = string_of_list_ascii (repeat "/"%char n)
            ++ _fix_filename project filename)
  ∧ _fix_filename project (_fix_filename project filename)
    = _fix_filename project filename.
Proof.
  unfold _fix_filename. split; [apply str_lstrip_no_slash|].
  split; [apply str_lstrip_split|].
  apply str_lstrip_id, str_lstrip_no_slash.
Qed.

(** [resolve_path] and [resolve] return the same for a file name and for
    that file name behind any number of leading slashes. *)
Theorem resolve_path_ignores_leading_slashes
    (project : P) (n : nat) (filename : string)
    (version_slug language : option string) (single_version : option bool)
    (subdomain cname : pyval)
    (require_https : bool) (query_params : string) (external : option bool) :
  resolve_path settings db project
    (string_of_list_ascii (repeat "/"%char n) ++ filename)
    version_slug language single_version subdomain cname
  = resolve_path settings db project filename version_slug language
      single_version subdomain cname
  ∧ resolve settings db project require_https
      (string_of_list_ascii (repeat "/"%char n) ++ filename)
      query_params external version_slug language single_version
      subdomain cname
    = resolve settings db project require_https filename query_params
        external version_slug language single_version subdomain cname.
Proof.
  assert (resolve_path settings db project
            (string_of_list_ascii (repeat "/"%char n) ++ filename)
            version_slug language single_version subdomain cname
          = resolve_path settings db project filename version_slug language
              single_version subdomain cname) as Hpath.
  { unfold resolve_path, _fix_filename. by rewrite str_lstrip_slashes. }
  split; [done|].
  unfold resolve, resolve_components. cbn [u_protocol u_domain u_path u_query].
  by rewrite Hpath.
Qed.

Lemma base_resolve_path_root
    (project_slug filename : string) (version_slug language : option string)
    (single_version : option bool) (subproject_slug : option string)
    (subdomain cname : pyval) :
  String.prefix "/"
    (base_resolve_path settings project_slug filename version_slug language
       single_version subproject_slug subdomain cname) = true.
Proof.
  apply str_prefix_app. rewrite base_resolve_path_shape. unfold spec_path.
  destruct (truthy subdomain || truthy cname || _use_subdomain settings).
  - eexists. rewrite !str_app_assoc. reflexivity.
  - eexists. rewrite !str_app_assoc. rewrite str_app_cons. reflexivity.
Qed.

(** Every path the resolver builds starts with a slash. *)
Theorem resolve_path_is_absolute
    (project : P) (project_slug filename : string)
    (version_slug language : option string) (single_version : option bool)
    (subproject_slug : option string) (subdomain cname : pyval) :
  String.prefix "/"
    (base_resolve_path settings project_slug filename version_slug language
       single_version subproject_slug subdomain cname) = true
  ∧ String.prefix "/"
      (resolve_path settings db project filename version_slug language
         single_version subdomain cname) = true.
Proof.
  split; [apply base_resolve_path_root|].
  unfold resolve_path. apply base_resolve_path_root.
Qed.

(** The host label generated from a slug has the length of the slug and
    no underscore; the subdomain form is that label, a dot and the public
    domain, the external form that label, two hyphens, the version slug, a
    dot and the external-version domain. *)
Theorem generated_host_label (project : P) (version_slug public_domain : string) :
  let label := str_replace "_" "-" (Project.slug (db project)) in
  String.length label = String.length (Project.slug (db project))
  ∧ str_in "_" label = false
  ∧ _get_external_subdomain settings db project version_slug
    = label ++ "--" ++ version_slug ++ "."
      ++ RTD_EXTERNAL_VERSION_DOMAIN settings
  ∧ (PUBLIC_DOMAIN settings = Some public_domain →
     _get_project_subdomain settings db project
     = label ++ "." ++ public_domain).
Proof.
  intros label. split; [apply str_replace_length|].
  split; [apply str_replace_no_underscore|]. split; [done|].
  intros Hpublic. unfold _get_project_subdomain. by rewrite Hpublic.
Qed.

(** *** External versions *)

(** [_is_external] looks at the first stored version with the given slug
    only: it holds exactly when that version exists and has type
    [EXTERNAL]; for a slug no stored version has it is false. *)
Theorem is_external_first_match (project : P) (version_slug : string) :
  (_is_external db project version_slug = true
   ↔ ∃ l1 v l2,
       Project.versions (db project) = (l1 ++ v :: l2)%list
       ∧ (∀ x, x ∈ l1 → Version.slug x ≠ version_slug)
       ∧ Version.slug v = version_slug
       ∧ Version.type v = EXTERNAL)
  ∧ ((∀ x, x ∈ Project.versions (db project) →
           Version.slug x ≠ version_slug) →
     _is_external db project version_slug = false).
Proof.
  unfold _is_external. split.
  - rewrite bool_decide_eq_true.
    destruct (filter (λ v, Version.slug v = version_slug)
                (Project.versions (db project))) as [|v0 rest] eqn:Hfilter.
    + split; [done|]. intros (l1 & v & l2 & Hl & Hl1 & Hv & _).
      assert (head (filter (λ v, Version.slug v = version_slug)
                      (Project.versions (db project))) = Some v) as Hhead.
      { apply head_filter_Some. by exists l1, l2. }
      by rewrite Hfilter in Hhead.
    + assert (head (filter (λ v, Version.slug v = version_slug)
                      (Project.versions (db project))) = Some v0) as Hhead.
      { by rewrite Hfilter. }
      simpl. split.
      * intros [= Htype].
        apply head_filter_Some in Hhead as (l1 & l2 & Hl & Hv & Hl1).
        by exists l1, v0, l2.
      * intros (l1 & v & l2 & Hl & Hl1 & Hv & Htype).
        assert (head (filter (λ v, Version.slug v = version_slug)
                        (Project.versions (db project))) = Some v) as Hhead'.
        { apply head_filter_Some. by exists l1, l2. }
        rewrite Hhead in Hhead'. injection Hhead' as ->. by rewrite Htype.
  - intros Hnone. by rewrite filter_none_nil.
Qed.

(** For a version slug the project has no version of, and no [external]
    argument, [resolve] uses the domain of [resolve_domain]. *)
Theorem resolve_unknown_version_domain
    (project : P) (require_https : bool) (filename query_params : string)
    (version_slug language : option string) (single_version : option bool)
    (subdomain cname : pyval) :
  (∀ x, x ∈ Project.versions (db project) →
        Version.slug x
        ≠ default (get_default_version db project) version_slug) →
  u_domain (resolve_components settings db project require_https filename
              query_params None version_slug language single_version
              subdomain cname)
  = resolve_domain settings db project.
Proof.
  intros Hnone. unfold resolve_components, resolve_domain.
  cbn [u_domain].
  assert (_is_external db project
            (default (get_default_version db project) version_slug) = false)
    as Hext.
  { unfold _is_external. by rewrite filter_none_nil. }
  destruct version_slug as [v|]; simpl in Hext; rewrite Hext;
    by destruct (get_canonical_custom_domain db (_get_canonical_project db project)).
Qed.

(** *** The canonical project *)

Lemma get_canonical_project_rec_path (p0 : P) (fuel : nat) :
  ∀ (j : nat) (cur q : P) (projects : option (gset P)),
    ascend db j p0 = Some cur →
    (∀ v, v ∈ seen cur projects → ∃ i, i ≤ j ∧ ascend db i p0 = Some v) →
    get_canonical_project_rec db fuel cur projects = Some q →
    ∃ j', j ≤ j' < j + fuel
          ∧ ascend db j' p0 = Some q
          ∧ (next_project db q = None
             ∨ ∃ i, i ≤ j' ∧ ascend db i p0 = next_project db q).
Proof.
  induction fuel as [|fuel IH]; intros j cur q projects Hj Hseen Hq; [done|].
  simpl in Hq. fold (seen cur projects) in Hq.
  destruct (next_project db cur) as [next|] eqn:Hnext.
  - case_decide as Hin.
    + injection Hq as <-. exists j. split; [lia|]. split; [done|].
      right. rewrite Hnext. by apply Hseen.
    + pose proof (ascend_S_r db j p0 cur next Hj Hnext) as Hj'.
      destruct (IH (S j) next q (Some (seen cur projects)) Hj')
        as (j' & Hbound & Hq' & Hstop); [|done|].
      * intros v Hv. simpl in Hv. apply elem_of_union in Hv as [Hv|Hv].
        -- apply elem_of_singleton in Hv as ->. by exists (S j).
        -- destruct (Hseen v Hv) as (i & Hi & Hv'). exists i. split; [lia|done].
      * exists j'. split; [lia | done].
  - injection Hq as <-. exists j. split; [lia|]. split; [done|].
    left. done.
Qed.

(** The canonical project lies fewer hops above the input than there are
    projects, and the ascent stops there for one of two reasons only: the
    project has no parent, or its parent is a project the ascent already
    went through. *)
Theorem canonical_project_is_ancestor (project : P) :
  ∃ j, j < card P
       ∧ ascend db j project = Some (_get_canonical_project db project)
       ∧ (next_project db (_get_canonical_project db project) = None
          ∨ ∃ i, i ≤ j
                 ∧ ascend db i project
                   = next_project db (_get_canonical_project db project)).
Proof.
  destruct (get_canonical_project_rec_path project (card P) 0 project
              (_get_canonical_project db project) None)
    as (j & Hbound & Hj & Hstop).
  - done.
  - intros v Hv. simpl in Hv. apply elem_of_singleton in Hv as ->.
    by exists 0.
  - apply get_canonical_project_returns.
  - exists j. split; [lia | done].
Qed.

(** In a hierarchy without cycle the canonical project has neither a
    translation parent nor a subproject relation. *)
Theorem canonical_project_has_no_parent (project : P) :
  acyclic_above db project →
  Project.main_language_project (db (_get_canonical_project db project)) = None
  ∧ get_parent_relationship db (_get_canonical_project db project) = None.
Proof.
  intros Hacyclic.
  assert (next_project db (_get_canonical_project db project) = None) as Hroot.
  { destruct (canonical_project_stop db project) as [[j Hj] [Hroot|[i Hcyc]]];
      [done|].
    exfalso. by apply (Hacyclic j _ (S i) Hj); [lia|]. }
  unfold next_project in Hroot.
  destruct (Project.main_language_project
              (db (_get_canonical_project db project))); [done|].
  by destruct (get_parent_relationship db (_get_canonical_project db project)).
Qed.

(** Below a common root every project of a hierarchy has the same
    canonical project as its ancestors, and so [resolve_domain] gives a
    translation or a subproject the domain of its parents. *)
Theorem resolve_domain_shared_with_ancestors
    (project ancestor root : P) (d j : nat) :
  ascend db d project = Some root → next_project db root = None →
  ascend db j project = Some ancestor →
  _get_canonical_project db ancestor = _get_canonical_project db project
  ∧ resolve_domain settings db ancestor = resolve_domain settings db project.
Proof.
  intros Hd Hroot Hj.
  destruct (ascend_root_above db d j project ancestor root Hd Hroot Hj)
    as [_ Hancestor].
  assert (_get_canonical_project db ancestor
          = _get_canonical_project db project) as Hcanon.
  { rewrite (canonical_project_root db d project root Hd Hroot).
    by apply (canonical_project_root db (d - j)). }
  split; [done|]. unfold resolve_domain. by rewrite Hcanon.
Qed.

(** *** Paths through the hierarchy *)

Lemma truthy_py_or (a b : pyval) : truthy (py_or a b) = truthy a || truthy b.
Proof. unfold py_or. by destruct (truthy a) eqn:Ha; rewrite ?Ha. Qed.

(** A project without translation parent and without subproject relation
    gets the plain path: its own slug, no subproject segment, the caller's
    language and version slug when they are given and not empty, the
    project's own otherwise; the root is a single slash exactly when a
    subdomain or cname is passed, the project has a canonical custom
    domain, or the platform serves under subdomains. *)
Theorem resolve_path_standalone
    (project : P) (filename : string) (version_slug language : option string)
    (single_version : option bool) (subdomain cname : pyval) :
  next_project db project = None →
  resolve_path settings db project filename version_slug language
    single_version subdomain cname
  = spec_path
      (truthy subdomain || truthy cname
       || bool_decide (is_Some (get_canonical_custom_domain db project))
       || _use_subdomain settings)
      (Project.slug (db project)) None
      (Project.single_version (db project) || default false single_version)
      (str_or language (Project.language (db project)))
      (str_or version_slug (get_default_version db project))
      (str_lstrip "/" filename).
Proof.
  intros Hroot. unfold resolve_path.
  assert (resolve_path_walk db project language cname
          = {| w_current_project := project;
               w_project_slug := Project.slug (db project);
               w_language := str_or language (Project.language (db project));
               w_subproject_slug := None;
               w_cname :=
                 py_or cname (of_domain (get_canonical_custom_domain db project))
            |}) as ->.
  { unfold resolve_path_walk. simpl. unfold walk_step. simpl.
    unfold next_project in Hroot.
    destruct (Project.main_language_project (db project)); [done|].
    by destruct (get_parent_relationship db project). }
  rewrite base_resolve_path_shape. cbn [w_cname w_project_slug w_language
    w_subproject_slug pending_alias str_format default].
  rewrite truthy_py_or.
  assert (truthy (of_domain (get_canonical_custom_domain db project))
          = bool_decide (is_Some (get_canonical_custom_domain db project)))
    as ->.
  { by destruct (get_canonical_custom_domain db project). }
  by rewrite !orb_assoc.
Qed.

(** A subproject of a translation: the walk ends at the translation's main
    project, so the path carries no [projects/{alias}/] segment; the
    language is the one of the project [resolve_path] was called for, also
    when the caller passed another; the cname is the first canonical
    domain of the direct parent. *)
Theorem resolve_path_subproject_of_translation
    (project main : P) (relation : ProjectRelationship.t P)
    (filename : string) (version_slug language : option string)
    (single_version : option bool) (subdomain cname : pyval) :
  Project.main_language_project (db project) = None →
  get_parent_relationship db project = Some relation →
  Project.main_language_project (db (ProjectRelationship.parent relation))
  = Some main →
  resolve_path_walk db project language cname
  = {| w_current_project := main;
       w_project_slug := Project.slug (db main);
       w_language := Project.language (db project);
       w_subproject_slug := None;
       w_cname :=
         of_domain
           (first_canonical_domain db (ProjectRelationship.parent relation)) |}
  ∧ resolve_path settings db project filename version_slug language
      single_version subdomain cname
    = spec_path
        (truthy subdomain
         || bool_decide
              (is_Some (first_canonical_domain db
                          (ProjectRelationship.parent relation)))
         || _use_subdomain settings)
        (Project.slug (db main)) None
        (Project.single_version (db project) || default false single_version)
        (Project.language (db project))
        (str_or version_slug (get_default_version db project))
        (str_lstrip "/" filename).
Proof.
  intros Hmain Hrelation Hparent.
  assert (resolve_path_walk db project language cname
          = {| w_current_project := main;
               w_project_slug := Project.slug (db main);
               w_language := Project.language (db project);
               w_subproject_slug := None;
               w_cname :=
                 of_domain
                   (first_canonical_domain db
                      (ProjectRelationship.parent relation)) |}) as Hwalk.
  { unfold resolve_path_walk, walk, walk_step.
    cbn [w_current_project w_cname w_language]. rewrite Hmain, Hrelation.
    cbn [w_current_project w_cname w_language]. by rewrite Hparent. }
  split; [done|].
  unfold resolve_path. rewrite Hwalk, base_resolve_path_shape.
  cbn [w_cname w_project_slug w_language w_subproject_slug pending_alias
       str_format default].
  by destruct (first_canonical_domain db (ProjectRelationship.parent relation)).
Qed.

(** A translation of a subproject: the walk ends at the parent of the main
    project's relation, so the path carries the relation's alias, the
    parent's slug and the language of the translation itself. *)
Theorem resolve_path_translation_of_subproject
    (project main : P) (relation : ProjectRelationship.t P)
    (filename : string) (version_slug language : option string)
    (single_version : option bool) (subdomain cname : pyval) :
  Project.main_language_project (db project) = Some main →
  Project.main_language_project (db main) = None →
  get_parent_relationship db main = Some relation →
  resolve_path_walk db project language cname
  = {| w_current_project := ProjectRelationship.parent relation;
       w_project_slug :=
         Project.slug (db (ProjectRelationship.parent relation));
       w_language := Project.language (db project);
       w_subproject_slug := Some (ProjectRelationship.alias relation);
       w_cname :=
         of_domain
           (first_canonical_domain db (ProjectRelationship.parent relation)) |}
  ∧ resolve_path settings db project filename version_slug language
      single_version subdomain cname
    = spec_path
        (truthy subdomain
         || bool_decide
              (is_Some (first_canonical_domain db
                          (ProjectRelationship.parent relation)))
         || _use_subdomain settings)
        (Project.slug (db (ProjectRelationship.parent relation)))
        (pending_alias (Some (ProjectRelationship.alias relation)))
        (Project.single_version (db project) || default false single_version)
        (Project.language (db project))
        (str_or version_slug (get_default_version db project))
        (str_lstrip "/" filename).
Proof.
  intros Hmain Hmain' Hrelation.
  assert (resolve_path_walk db project language cname
          = {| w_current_project := ProjectRelationship.parent relation;
               w_project_slug :=
                 Project.slug (db (ProjectRelationship.parent relation));
               w_language := Project.language (db project);
               w_subproject_slug := Some (ProjectRelationship.alias relation);
               w_cname :=
                 of_domain
                   (first_canonical_domain db
                      (ProjectRelationship.parent relation)) |}) as Hwalk.
  { unfold resolve_path_walk, walk, walk_step.
    cbn [w_current_project w_cname w_language]. rewrite Hmain.
    cbn [w_current_project w_cname w_language]. by rewrite Hmain', Hrelation. }
  split; [done|].
  unfold resolve_path. rewrite Hwalk, base_resolve_path_shape.
  cbn [w_cname w_project_slug w_language w_subproject_slug str_format default].
  by destruct (first_canonical_domain db (ProjectRelationship.parent relation)).
Qed.

(** *** Protocol and URL *)

(** When https is enforced for a public domain that is set and not empty,
    every external host name and every generated subdomain is served over
    https. *)
Theorem generated_hosts_use_https
    (project : P) (require_https : bool) (filename query_params : string)
    (external : option bool) (version_slug language : option string)
    (single_version : option bool) (subdomain cname : pyval)
    (public_domain : string) :
  let version := default (get_default_version db project) version_slug in
  let is_external := default (_is_external db project version) external in
  let custom_domain :=
    get_canonical_custom_domain db (_get_canonical_project db project) in
  PUBLIC_DOMAIN_USES_HTTPS settings = true →
  PUBLIC_DOMAIN settings = Some public_domain →
  public_domain ≠ "" →
  is_external = true ∨ (custom_domain = None ∧ USE_SUBDOMAIN settings = true) →
  u_protocol (resolve_components settings db project require_https filename
                query_params external version_slug language single_version
                subdomain cname)
  = "https".
Proof.
  intros version is_external custom_domain Huses Hpublic Hnonempty Hcase.
  set (u := resolve_components settings db project require_https filename
              query_params external version_slug language single_version
              subdomain cname).
  set (a := match custom_domain with
            | Some d => Domain.https d
            | None => false
            end).
  assert (u_protocol u
          = if a || require_https || https_public settings (u_domain u)
            then "https" else "http") as -> by done.
  assert (u_domain u
          = if is_external
            then _get_external_subdomain settings db
                   (_get_canonical_project db project) version
            else match custom_domain with
                 | Some d => Domain.domain d
                 | None =>
                     if _use_subdomain settings
                     then _get_project_subdomain settings db
                            (_get_canonical_project db project)
                     else PRODUCTION_DOMAIN settings
                 end) as Hdomain.
  { unfold u, resolve_components, is_external, version. cbn [u_domain].
    by destruct external as [[]|], version_slug. }
  assert (https_public settings (u_domain u) = true) as ->.
  { rewrite Hdomain. unfold https_public. rewrite Huses, Hpublic.
    assert (str_truthy public_domain = true) as -> by by destruct public_domain.
    cbn [andb]. apply orb_true_iff.
    destruct is_external.
    - right. unfold _get_external_subdomain.
      rewrite <- !str_app_assoc. apply str_in_app_r.
    - destruct Hcase as [?|[-> Huse]]; [done|]. left.
      unfold _use_subdomain. rewrite Huse, Hpublic.
      rewrite bool_decide_eq_true_2 by by eexists. cbn [andb].
      unfold _get_project_subdomain. rewrite Hpublic. cbn [str_format].
      rewrite <- !str_app_assoc. apply str_in_app_r. }
  by rewrite !orb_true_r.
Qed.

(** An empty string for [version_slug] or [language] counts as not given
    in the path, where the project's defaults are used, but it is kept as
    the version in the external host name. *)
Example resolve_empty_version_slug
    (project : P) (require_https : bool) (filename query_params : string)
    (external : option bool) (single_version : option bool)
    (subdomain cname : pyval) :
  resolve_path settings db project filename (Some "") (Some "")
    single_version subdomain cname
  = resolve_path settings db project filename None None
      single_version subdomain cname
  ∧ u_path (resolve_components settings db project require_https filename
              query_params external (Some "") None single_version
              subdomain cname)
    = u_path (resolve_components settings db project require_https filename
                query_params external None None single_version
                subdomain cname)
  ∧ u_domain (resolve_components settings db project require_https filename
                query_params (Some true) (Some "") None single_version
                subdomain cname)
    = str_replace "_" "-"
        (Project.slug (db (_get_canonical_project db project)))
      ++ "--." ++ RTD_EXTERNAL_VERSION_DOMAIN settings.
Proof. done. Qed.

(** When the resolved domain is not empty, the URL [resolve] returns is
    the scheme, [://], the domain, the path and, for query parameters that
    are not empty, a question mark and the parameters. *)
Theorem resolve_url_assembly
    (project : P) (require_https : bool) (filename query_params : string)
    (external : option bool) (version_slug language : option string)
    (single_version : option bool) (subdomain cname : pyval) :
  let u :=
    resolve_components settings db project require_https filename
      query_params external version_slug language single_version
      subdomain cname in
  u_domain u ≠ "" →
  resolve settings db project require_https filename query_params external
    version_slug language single_version subdomain cname
  = u_protocol u ++ "://" ++ u_domain u ++ u_path u
    ++ (if str_truthy query_params then "?" ++ query_params else "").
Proof.
  intros u Hdomain. unfold resolve. fold u.
  assert (String.prefix "/" (u_path u) = true) as Hpath.
  { unfold u, resolve_components. cbn [u_path]. unfold resolve_path.
    apply base_resolve_path_root. }
  assert (str_truthy (u_domain u) = true) as Htruthy.
  { by destruct (u_domain u). }
  assert (str_truthy (u_protocol u) = true) as Hscheme.
  { unfold u, resolve_components. cbn [u_protocol].
    by match goal with |- context [if ?b then _ else _] => destruct b end. }
  assert (u_query u = query_params) as -> by done.
  unfold urlunparse. cbn [str_truthy].
  rewrite Htruthy, Hscheme, Hpath. simpl.
  rewrite andb_false_r.
  destruct (str_truthy query_params); [|by rewrite str_app_nil_r].
  by rewrite !str_app_assoc.
Qed.

End MoreProperties.

(** ** The further properties at concrete tables *)

Lemma generated_host_label_witness :
  PUBLIC_DOMAIN settings_subdomain = Some "readthedocs.io"
  ∧ _get_project_subdomain settings_subdomain db_sub pk4
    = "my-project.readthedocs.io".
Proof.
  split; [reflexivity|].
  destruct (generated_host_label settings_subdomain db_sub pk4 "pr-42"
              "readthedocs.io") as (_ & _ & _ & Hsubdomain).
  exact (Hsubdomain eq_refl).
Defined.

Lemma is_external_first_match_witness :
  _is_external db_sub pk4 "pr-42" = true
  ∧ _is_external db_sub pk4 "no-such-version" = false.
Proof.
  split.
  - destruct (is_external_first_match db_sub pk4 "pr-42") as ([_ Hfirst] & _).
    apply Hfirst.
    exists [], (Version.mk "pr-42" EXTERNAL), [Version.mk "latest" BRANCH].
    split; [reflexivity|]. split; [|split; reflexivity].
    intros x Hx. apply elem_of_nil in Hx. destruct Hx.
  - destruct (is_external_first_match db_sub pk4 "no-such-version")
      as (_ & Hnone).
    apply Hnone. apply Forall_forall. apply (bool_decide_unpack _).
    vm_compute. reflexivity.
Defined.

Lemma resolve_unknown_version_domain_witness :
  u_domain (resolve_components settings_subdomain db_sub pk3 false "" ""
              None (Some "no-such-version") None None PyNone PyNone)
  = resolve_domain settings_subdomain db_sub pk3.
Proof.
  apply (resolve_unknown_version_domain settings_subdomain db_sub pk3).
  apply Forall_forall. apply (bool_decide_unpack _). vm_compute. reflexivity.
Defined.

Lemma canonical_project_has_no_parent_witness :
  acyclic_above db_chain pk1
  ∧ Project.main_language_project
      (db_chain (_get_canonical_project db_chain pk1)) = None
  ∧ get_parent_relationship db_chain (_get_canonical_project db_chain pk1)
    = None.
Proof.
  assert (acyclic_above db_chain pk1) as Hacyclic.
  { apply (acyclic_above_of_root db_chain 3 pk1 pk4); reflexivity. }
  split; [exact Hacyclic|].
  apply (canonical_project_has_no_parent db_chain pk1 Hacyclic).
Defined.

Lemma resolve_domain_shared_with_ancestors_witness :
  (ascend db_chain 3 pk1 = Some pk4 ∧ next_project db_chain pk4 = None
   ∧ ascend db_chain 2 pk1 = Some pk3)
  ∧ _get_canonical_project db_chain pk3 = _get_canonical_project db_chain pk1
  ∧ resolve_domain settings_subdomain db_chain pk3
    = resolve_domain settings_subdomain db_chain pk1.
Proof.
  split; [repeat split|].
  apply (resolve_domain_shared_with_ancestors settings_subdomain db_chain
           pk1 pk3 pk4 3 2);
    reflexivity.
Defined.

Lemma resolve_path_standalone_witness :
  next_project db_sub pk3 = None
  ∧ resolve_path settings_development db_sub pk3 "/guide/intro.html"
      (Some "stable") (Some "") None PyNone PyNone
    = "/en/stable/guide/intro.html".
Proof.
  split; [reflexivity|].
  exact (resolve_path_standalone settings_development db_sub pk3
           "/guide/intro.html" (Some "stable") (Some "") None PyNone PyNone
           eq_refl).
Defined.

Lemma resolve_path_subproject_of_translation_witness :
  get_parent_relationship db_chain pk1
  = Some (ProjectRelationship.mk pk2 "first")
  ∧ Project.main_language_project (db_chain pk2) = Some pk3
  ∧ resolve_path settings_development db_chain pk1 "index.html" None
      (Some "de") None PyNone PyNone
    = "/docs/three/en/latest/index.html".
Proof.
  split; [reflexivity|]. split; [reflexivity|].
  destruct (resolve_path_subproject_of_translation settings_development
              db_chain pk1 pk3 (ProjectRelationship.mk pk2 "first")
              "index.html" None (Some "de") None PyNone PyNone
              eq_refl eq_refl eq_refl) as [_ Hpath].
  exact Hpath.
Defined.

Lemma resolve_path_translation_of_subproject_witness :
  Project.main_language_project (db_chain pk2) = Some pk3
  ∧ get_parent_relationship db_chain pk3
    = Some (ProjectRelationship.mk pk4 "third")
  ∧ resolve_path settings_development db_chain pk2 "index.html" None
      (Some "de") None PyNone PyNone
    = "/docs/four/projects/third/fr/latest/index.html".
Proof.
  split; [reflexivity|]. split; [reflexivity|].
  destruct (resolve_path_translation_of_subproject settings_development
              db_chain pk2 pk3 (ProjectRelationship.mk pk4 "third")
              "index.html" None (Some "de") None PyNone PyNone
              eq_refl eq_refl eq_refl) as [_ Hpath].
  exact Hpath.
Defined.

Lemma generated_hosts_use_https_witness :
  u_protocol (resolve_components settings_https db_sub pk4 false "" ""
                None None None None PyNone PyNone)
  = "https"
  ∧ u_protocol (resolve_components settings_https db_sub pk3 false "" ""
                  None (Some "pr-42") None None PyNone PyNone)
    = "https".
Proof.
  split.
  - apply (generated_hosts_use_https settings_https db_sub pk4 false "" ""
             None None None None PyNone PyNone "readthedocs.io");
      [reflexivity | reflexivity | discriminate |].
    right. split; reflexivity.
  - apply (generated_hosts_use_https settings_https db_sub pk3 false "" ""
             None (Some "pr-42") None None PyNone PyNone "readthedocs.io");
      [reflexivity | reflexivity | discriminate |].
    left. reflexivity.
Defined.

Lemma resolve_url_assembly_witness :
  resolve settings_subdomain db_sub pk1 true "/index.html" "highlight=api"
    None None None None PyNone PyNone
  = "https://parent.readthedocs.io/projects/api/en/latest/index.html?highlight=api".
Proof.
  assert (u_domain
            (resolve_components settings_subdomain db_sub pk1 true
               "/index.html" "highlight=api" None None None None PyNone
               PyNone) ≠ "") as Hdomain by discriminate.
  exact (resolve_url_assembly settings_subdomain db_sub pk1 true
           "/index.html" "highlight=api" None None None None PyNone PyNone
           Hdomain).
Defined.
